(** * performance_benchmark.py: fixture generator and benchmark runner

    A shallow embedding of [performance_benchmark.py] (the benchmarking
    harness of the Power BI PBIP connector) and the properties its
    specification states about it.

    The file has two halves: the embedding (Python values, the simulated
    filesystem and console, the three functions of the module), then the
    lemmas and the theorems about it. *)

From Stdlib Require Import ZArith String Ascii DecimalString DecimalN Floats.
From stdpp Require Import gmap strings list.

Local Open Scope Z_scope.

(** ** Python values *)

(** The line feed, written [\n] in the source. *)
Definition nl : string := String (ascii_of_nat 10) "".

(** The double quote. *)
Definition dq : string := String (ascii_of_nat 34) "".

(** [s * n] on strings; a count below one gives the empty string. *)
Definition str_mul (s : string) (n : Z) : string :=
  Nat.iter (Z.to_nat n) (String.append s) "".

(** [sep.join(l)]. *)
Fixpoint join (sep : string) (l : list string) : string :=
  match l with
  | [] => ""
  | [s] => s
  | s :: l' => s +:+ sep +:+ join sep l'
  end.

(** [sub in s]: byte-wise, hence case-sensitive, substring test. *)
Fixpoint contains (sub s : string) : bool :=
  if String.prefix sub s then true
  else match s with
       | EmptyString => false
       | String _ s' => contains sub s'
       end.

(** The decimal digits of a natural number, most significant first. *)
Definition decimal (n : N) : string :=
  NilZero.string_of_uint (N.to_uint n).

Definition zfill (width : nat) (s : string) : string :=
  str_mul "0" (Z.of_nat (width - String.length s)) +:+ s.

(** [format(z, "0<width>d")], the conversion behind [{z:03d}] and [{z:02d}]:
    sign-aware zero padding up to [width] characters.  [format_d 0] is the
    plain [{z}]. *)
Definition format_d (width : nat) (z : Z) : string :=
  if z <? 0 then "-" +:+ zfill (width - 1) (decimal (Z.abs_N z))
  else zfill width (decimal (Z.abs_N z)).

(** Numbers are [int] or [float]; floats are IEEE 754 binary64, as CPython's. *)
Inductive pynum :=
  | PyInt (z : Z)
  | PyFloat (x : float).

(** [float(z)]; exact for the magnitudes below [2^53] that occur here
    (list lengths and the literals 0, 30, 100 and 1000). *)
Definition float_of_int (z : Z) : float :=
  if z <? 0 then PrimFloat.opp (PrimFloat.of_uint63 (Uint63.of_Z (- z)))
  else PrimFloat.of_uint63 (Uint63.of_Z z).

Definition to_float (v : pynum) : float :=
  match v with
  | PyInt z => float_of_int z
  | PyFloat x => x
  end.

Definition py_add (a b : pynum) : pynum :=
  match a, b with
  | PyInt x, PyInt y => PyInt (x + y)
  | _, _ => PyFloat (to_float a + to_float b)
  end.

Definition py_lt (a b : pynum) : bool :=
  match a, b with
  | PyInt x, PyInt y => x <? y
  | _, _ => (to_float a <? to_float b)%float
  end.

Definition py_gt (a b : pynum) : bool := py_lt b a.

Definition py_is_zero (v : pynum) : bool :=
  match v with
  | PyInt z => z =? 0
  | PyFloat x => (x =? 0)%float
  end.

(** [sum(xs)] over floats: the items are added from left to right, starting
    from the integer 0.  (CPython 3.12 and later compensate the rounding of
    the additions; no statement below depends on how the sum is rounded.) *)
Definition py_sum (xs : list float) : pynum :=
  fold_left (fun acc x => py_add acc (PyFloat x)) xs (PyInt 0).

(** Exceptions. *)
Inductive exn :=
  | ZeroDivisionError (msg : string)
  | OSError (msg : string)
  | ConnectorError (msg : string).

Inductive result (A : Type) :=
  | Ok (a : A)
  | Raise (e : exn).
Arguments Ok {A} a.
Arguments Raise {A} e.

(** [a / b]: true division; a zero divisor raises. *)
Definition py_truediv (a b : pynum) : result pynum :=
  if py_is_zero b then
    Raise (ZeroDivisionError
             match a, b with
             | PyInt _, PyInt _ => "division by zero"
             | _, _ => "float division by zero"
             end)
  else Ok (PyFloat (to_float a / to_float b)%float).

(** [a % b] on integers: the result has the sign of [b], as [Z.modulo]. *)
Definition py_mod (a b : Z) : result Z :=
  if b =? 0 then Raise (ZeroDivisionError "integer modulo by zero")
  else Ok (a mod b).

(** [range(n)]. *)
Definition range (n : Z) : list Z := seqZ 0 n.

(** JSON documents, as handed to [json.dump]. *)
#[warnings="-register-all"]
Inductive json :=
  | JNum (v : pynum)
  | JStr (s : string)
  | JArr (items : list json)
  | JObj (fields : list (string * json)).

(** ** The outside world *)

(** A path is the sequence of its components ([pathlib.Path.parts]);
    [p / name] appends one. *)
Abbreviation path := (list string).

Definition pjoin (p : path) (name : string) : path := p ++ [name].
Infix "//" := pjoin (at level 40, left associativity).

(** What a file holds: text written with [f.write], or a document written
    with [json.dump] (its serialisation is not unfolded). *)
Inductive content :=
  | Text (s : string)
  | JsonDoc (indent : option nat) (v : json).

Record filesystem := Filesystem {
  dirs : gset path;
  files : gmap path content;
}.

(** A formatted fragment of a printed line: literal text, or a number under
    the format [.{prec}f]. *)
Inductive frag :=
  | Lit (s : string)
  | Fixed (prec : nat) (v : pynum).
Abbreviation line := (list frag).

(** Everything the module does not control: which filesystem calls fail, what
    the clock reads, which entries resist deletion, where temporary
    directories go, and the connector under test
    ([powerbi_pbip_connector.PowerBIPBIPConnector]), whose methods may change
    the filesystem and may raise. *)
Class Environment := {
  io_fault : nat -> option exn;
  perf_counter_at : nat -> float;
  undeletable : path -> bool;
  gettempdir : path;
  mkdtemp_suffix : nat -> string;
  connector : Type;
  PowerBIPBIPConnector : bool -> connector;
  load_project : path -> connector -> filesystem -> result connector * filesystem;
  validate_tmdl_syntax : connector -> filesystem -> result connector * filesystem;
  fix_all_dax_quoting : connector -> filesystem -> result connector * filesystem;
  rename_table_in_files :
    string -> string -> connector -> filesystem -> result connector * filesystem;
}.

(** The state a run threads: the filesystem, how many fallible filesystem
    calls and clock readings were made, the console, and the log of
    [shutil.rmtree] calls. *)
Record world := World {
  fs : filesystem;
  io_calls : nat;
  clock_reads : nat;
  stdout : list line;
  rmtree_log : list path;
}.

Definition set_fs (f : filesystem) (w : world) : world :=
  World f (io_calls w) (clock_reads w) (stdout w) (rmtree_log w).

(** A computation: it may change the world, and returns or raises. *)
Definition M (A : Type) : Type := world -> result A * world.

Definition ret {A} (a : A) : M A := fun w => (Ok a, w).

Definition raise {A} (e : exn) : M A := fun w => (Raise e, w).

Definition bind {A B} (m : M A) (k : A -> M B) : M B :=
  fun w =>
    match m w with
    | (Ok a, w') => k a w'
    | (Raise e, w') => (Raise e, w')
    end.

Notation "x <- m ;; k" := (bind m (fun x => k))
  (at level 100, m at next level, k at level 200, right associativity).
Notation "'let2' x , y <- m ;; k" := (bind m (fun xy => let x := fst xy in let y := snd xy in k))
  (at level 100, x name, y name, m at next level, k at level 200, right associativity).
Notation "m ;;; k" := (bind m (fun _ => k))
  (at level 100, k at level 200, right associativity).

Definition lift {A} (r : result A) : M A := fun w => (r, w).

(** [for x in l: body x]. *)
Fixpoint for_each {A} (l : list A) (body : A -> M unit) : M unit :=
  match l with
  | [] => ret tt
  | x :: l' => body x ;;; for_each l' body
  end.

(** [try: body finally: cleanup].  [cleanup] runs whatever [body] did; an
    exception of [cleanup] would replace the outcome of [body]. *)
Definition try_finally {A} (body : M A) (cleanup : M unit) : M A :=
  fun w =>
    let (r, w1) := body w in
    match cleanup w1 with
    | (Ok _, w2) => (r, w2)
    | (Raise e, w2) => (Raise e, w2)
    end.

Definition print (l : line) : M unit :=
  fun w => (Ok tt, World (fs w) (io_calls w) (clock_reads w) (stdout w ++ [l]) (rmtree_log w)).

(** All the prefixes of a path: the directories [os.makedirs] makes sure of. *)
Fixpoint ancestors (p : path) : list path :=
  match p with
  | [] => [[]]
  | c :: p' => [] :: map (cons c) (ancestors p')
  end.

Definition add_dirs (p : path) (f : filesystem) : filesystem :=
  Filesystem (list_to_set (ancestors p) ∪ dirs f) (files f).

Definition put_file (p : path) (c : content) (f : filesystem) : filesystem :=
  Filesystem (dirs f) (<[p := c]> (files f)).

Definition entries (f : filesystem) : gset path := dirs f ∪ dom (files f).

Section World.
Context {E : Environment}.

(** A filesystem call: it fails when the environment says so (permission
    denied, disk full, a file in the way, ...), and has its effect
    otherwise. *)
Definition io (effect : filesystem -> filesystem) : M unit :=
  fun w =>
    let w' := World (fs w) (S (io_calls w)) (clock_reads w) (stdout w) (rmtree_log w) in
    match io_fault (io_calls w) with
    | Some e => (Raise e, w')
    | None => (Ok tt, set_fs (effect (fs w)) w')
    end.

(** [os.makedirs(p, exist_ok=True)]. *)
Definition makedirs (p : path) : M unit := io (add_dirs p).

(** [with open(p, 'w') as f: f.write(s)]. *)
Definition write_text (p : path) (s : string) : M unit := io (put_file p (Text s)).

(** [with open(p, 'w') as f: json.dump(v, f, indent=indent)]. *)
Definition json_dump (p : path) (indent : option nat) (v : json) : M unit :=
  io (put_file p (JsonDoc indent v)).

(** [tempfile.mkdtemp(prefix=prefix)]. *)
Definition mkdtemp (prefix : string) : M path :=
  fun w =>
    let d := gettempdir // (prefix +:+ mkdtemp_suffix (io_calls w)) in
    (io (add_dirs d) ;;; ret d) w.

(** [time.perf_counter()]. *)
Definition perf_counter : M float :=
  fun w =>
    (Ok (perf_counter_at (clock_reads w)),
     World (fs w) (io_calls w) (S (clock_reads w)) (stdout w) (rmtree_log w)).

(** An entry resists [rmtree] when it, or something that exists beneath it,
    cannot be deleted. *)
Definition stuck (f : filesystem) (e : path) : Prop :=
  set_Exists (fun u => undeletable u = true ∧ e `prefix_of` u) (entries f).

Definition survives (f : filesystem) (root e : path) : Prop :=
  ¬ root `prefix_of` e ∨ stuck f e.

Definition remove_tree (root : path) (f : filesystem) : filesystem :=
  Filesystem (filter (survives f root) (dirs f))
             (filter (fun pc => survives f root pc.1) (files f)).

(** [shutil.rmtree(root, ignore_errors=True)]: deletes what it can, skips
    what it cannot, and never raises. *)
Definition rmtree_ignore_errors (root : path) : M unit :=
  fun w =>
    (Ok tt, World (remove_tree root (fs w)) (io_calls w) (clock_reads w)
                  (stdout w) (rmtree_log w ++ [root])).

(** A call of a connector method. *)
Definition call (method : filesystem -> result connector * filesystem) : M connector :=
  fun w => let (r, f) := method (fs w) in (r, set_fs f w).

End World.

(** ** The fixture generator *)

Section Program.
Context {E : Environment}.

Definition project_name : string := "PerfTest".

Definition project_dir (temp_dir : path) : path := temp_dir // project_name.
Definition pbip_file (temp_dir : path) : path :=
  project_dir temp_dir // (project_name +:+ ".pbip").
Definition semantic_dir (temp_dir : path) : path :=
  project_dir temp_dir // (project_name +:+ ".SemanticModel").
Definition tables_dir (temp_dir : path) : path :=
  semantic_dir temp_dir // "definition" // "tables".
Definition relationships_dir (temp_dir : path) : path :=
  semantic_dir temp_dir // "definition" // "relationships".
Definition report_dir (temp_dir : path) : path :=
  project_dir temp_dir // (project_name +:+ ".Report").
Definition definition_dir (temp_dir : path) : path :=
  report_dir temp_dir // "definition".
Definition pages_dir (temp_dir : path) : path :=
  definition_dir temp_dir // "pages".

(** [padding_per_table] *)
Definition padding_per_table (avg_table_size_kb : Z) : string :=
  "    " +:+ str_mul "   " (avg_table_size_kb * 100).

(** Per table [i]: [table_name], [safe_name], [columns], [measure],
    [table_content] and the file it is written to. *)
Definition table_name (i : Z) : string := "Table_" +:+ format_d 3 (i + 1).

Definition safe_name (i : Z) : string :=
  if negb (i mod 3 =? 0) then table_name i
  else "Table With Spaces_" +:+ format_d 3 (i + 1).

Definition column (j : Z) : string :=
  "    column Column_" +:+ format_d 2 (j + 1) +:+ nl +:+ "        dataType: string".

Definition columns : string := join nl (map column (range 5)).

Definition measure (i : Z) : string :=
  if i mod 2 =? 0 then
    nl +:+ "    measure MeasureCount = COUNTROWS(" +:+ table_name i +:+ ")" +:+ nl +:+
    "    measure MeasureSum = SUM(" +:+ table_name i +:+ "[Column_01])"
  else "".

Definition table_content (avg_table_size_kb i : Z) : string :=
  "table " +:+ safe_name i +:+ nl +:+
  columns +:+ nl +:+
  measure i +:+ nl +:+
  padding_per_table avg_table_size_kb +:+ nl.

Definition table_file (temp_dir : path) (i : Z) : path :=
  tables_dir temp_dir // (table_name i +:+ ".tmdl").

(** Per relationship [i]: [rel_content] and its file. *)
Definition rel_content (i : Z) : string :=
  "relationship rel_" +:+ format_d 0 (i + 1) +:+ nl +:+
  "  cardinality: manyToOne" +:+ nl +:+
  "  fromTable: Table_" +:+ format_d 3 (i + 1) +:+ nl +:+
  "  fromColumn: Column_01" +:+ nl +:+
  "  toTable: Table_" +:+ format_d 3 (i + 2) +:+ nl +:+
  "  toColumn: Column_01" +:+ nl.

Definition rel_file (temp_dir : path) (i : Z) : path :=
  relationships_dir temp_dir // ("rel_" +:+ format_d 0 (i + 1) +:+ ".tmdl").

(** The literal [{"version": "<v>"}] of the two manifests. *)
Definition version_manifest (v : string) : string :=
  "{" +:+ dq +:+ "version" +:+ dq +:+ ": " +:+ dq +:+ v +:+ dq +:+ "}".

Definition pages_json : json :=
  JObj [("pages", JArr [JObj [("name", JStr "Page1"); ("displayName", JStr "Page 1")]])].

(** Per visual [v]: [page_id], [visual_id], [visual_dir], [visual_content]. *)
Definition page_id (v : Z) : string := "page_" +:+ format_d 2 (v / 5 + 1).
Definition visual_id (v : Z) : string := "visual_" +:+ format_d 3 (v + 1).
Definition visual_dir (temp_dir : path) (v : Z) : path :=
  pages_dir temp_dir // page_id v // "visuals" // visual_id v.
Definition visual_file (temp_dir : path) (v : Z) : path :=
  visual_dir temp_dir v // "visual.json".

(** [entity] is the value of [(v % num_tables) + 1]. *)
Definition visual_content (entity : Z) : json :=
  JObj [("version", JStr "1.0");
        ("config",
         JObj [("type", JStr "card");
               ("projections",
                JObj [("Values",
                       JArr [JObj [("SourceRef",
                                    JObj [("Entity", JStr ("Table_" +:+ format_d 3 entity));
                                          ("Property", JStr "Column_01")])]])])])].

Definition report_json : json :=
  JObj [("version", JStr "1.0"); ("sections", JArr [])].

(** [create_performance_test_project]; the result is [str(project_dir)]. *)
Definition create_performance_test_project
    (temp_dir : path) (num_tables num_visuals avg_table_size_kb : Z)
    (use_pbir_enhanced : bool) : M path :=
  (* Create directory structure *)
  makedirs (tables_dir temp_dir) ;;;
  makedirs (relationships_dir temp_dir) ;;;
  makedirs (report_dir temp_dir) ;;;
  (* Create .pbip file *)
  write_text (pbip_file temp_dir) (version_manifest "1.0") ;;;
  (* Create tables with padding to reach desired size *)
  for_each (range num_tables) (fun i =>
    write_text (table_file temp_dir i) (table_content avg_table_size_kb i)) ;;;
  (* Create relationships *)
  for_each (range (num_tables - 1)) (fun i =>
    write_text (rel_file temp_dir i) (rel_content i)) ;;;
  (* Create PBIR format *)
  (if use_pbir_enhanced then
     makedirs (pages_dir temp_dir) ;;;
     write_text (definition_dir temp_dir // "report.json") (version_manifest "2.0") ;;;
     json_dump (pages_dir temp_dir // "pages.json") None pages_json ;;;
     for_each (range num_visuals) (fun v =>
       makedirs (visual_dir temp_dir v) ;;;
       m <- lift (py_mod v num_tables) ;;
       json_dump (visual_file temp_dir v) (Some 2%nat) (visual_content (m + 1)))
   else
     json_dump (report_dir temp_dir // "report.json") None report_json) ;;;
  ret (project_dir temp_dir).

(** ** The timer *)

(** [benchmark_operation]; the argument [operation] stands for the call of
    the operation on its arguments. *)
Definition benchmark_operation {R} (name : string) (operation : M R) : M (float * R) :=
  start <- perf_counter ;;
  result <- operation ;;
  end_ <- perf_counter ;;
  let elapsed_ms := ((end_ - start) * float_of_int 1000)%float in
  print [Lit "  "; Lit name; Lit ": "; Fixed 2 (PyFloat elapsed_ms); Lit "ms"] ;;;
  ret (elapsed_ms, result).

(** ** The benchmark run *)

(** An entry of [results["benchmarks"]]. *)
Record sample := Sample {
  operation : string;
  time_ms : float;
}.

(** The dictionary [results]. *)
Record results_t := Results {
  benchmarks : list sample;
  summary : list (string * pynum);
}.

(** [results["benchmarks"].append({"operation": op, "time_ms": elapsed})] *)
Definition append (r : results_t) (op : string) (elapsed : float) : results_t :=
  Results (benchmarks r ++ [Sample op elapsed]) (summary r).

Definition json_of_sample (b : sample) : json :=
  JObj [("operation", JStr (operation b)); ("time_ms", JNum (PyFloat (time_ms b)))].

Definition json_of_results (r : results_t) : json :=
  JObj [("benchmarks", JArr (map json_of_sample (benchmarks r)));
        ("summary", JObj (map (fun kv => (kv.1, JNum kv.2)) (summary r)))].

Definition rule (c : string) : string := str_mul c 70.

(** [[b for b in results["benchmarks"] if "small" in b["operation"]]] and
    its two siblings. *)
Definition small_ops (bs : list sample) : list sample :=
  List.filter (fun b => contains "small" (operation b)) bs.
Definition medium_ops (bs : list sample) : list sample :=
  List.filter (fun b => contains "medium" (operation b)) bs.
Definition large_ops (bs : list sample) : list sample :=
  List.filter (fun b => contains "large" (operation b)) bs.

(** [sum(b['time_ms'] for b in ops) / len(ops)] *)
Definition average (ops : list sample) : result pynum :=
  py_truediv (py_sum (map time_ms ops)) (PyInt (Z.of_nat (length ops))).

(** [large_avg / small_avg if small_avg > 0 else 0] *)
Definition scaling_factor (small_avg large_avg : pynum) : result pynum :=
  if py_gt small_avg (PyInt 0) then py_truediv large_avg small_avg
  else Ok (PyInt 0).

Definition sub_linear_msg : line :=
  [Lit "✓ Sub-linear scaling! Performance is good."].
Definition linear_msg : line :=
  [Lit "⚠ Linear scaling. Consider parallelization for very large projects."].
Definition super_linear_msg : line :=
  [Lit "⚠ Super-linear scaling. Possible optimization needed."].

(** The message chosen by the [if]/[elif]/[else] on the scaling factor. *)
Definition growth_msg (scaling_factor : pynum) : line :=
  if py_lt scaling_factor (PyInt 30) then sub_linear_msg
  else if py_lt scaling_factor (PyInt 100) then linear_msg
  else super_linear_msg.

(** The block "Scaling analysis". *)
Definition scaling_analysis (small_ops large_ops : list sample) : M unit :=
  match small_ops, large_ops with
  | _ :: _, _ :: _ =>
      small_avg <- lift (average small_ops) ;;
      large_avg <- lift (average large_ops) ;;
      scaling_factor <- lift (scaling_factor small_avg large_avg) ;;
      print [Lit (nl +:+ "Scaling Factor (Large vs Small): ");
             Fixed 1 scaling_factor; Lit "x"] ;;;
      print [Lit "Table growth: 10 -> 200 (20x)"] ;;;
      print [Lit "Time growth: ~"; Fixed 1 scaling_factor; Lit "x"] ;;;
      print (growth_msg scaling_factor)
  | _, _ => ret tt
  end.

(** The block "Summary analysis" up to "Results saved". *)
Definition summary_analysis (results : results_t) : M results_t :=
  print [Lit (nl +:+ rule "=")] ;;;
  print [Lit "PERFORMANCE SUMMARY"] ;;;
  print [Lit (rule "=")] ;;;
  let small_ops := small_ops (benchmarks results) in
  let medium_ops := medium_ops (benchmarks results) in
  let large_ops := large_ops (benchmarks results) in
  a <- lift (average small_ops) ;;
  print [Lit (nl +:+ "Small Project Average: "); Fixed 2 a; Lit "ms"] ;;;
  a <- lift (average medium_ops) ;;
  print [Lit "Medium Project Average: "; Fixed 2 a; Lit "ms"] ;;;
  a <- lift (average large_ops) ;;
  print [Lit "Large Project Average: "; Fixed 2 a; Lit "ms"] ;;;
  scaling_analysis small_ops large_ops ;;;
  small_avg_ms <- lift (average small_ops) ;;
  medium_avg_ms <- lift (average medium_ops) ;;
  large_avg_ms <- lift (average large_ops) ;;
  let results :=
    Results (benchmarks results)
            [("small_avg_ms", small_avg_ms);
             ("medium_avg_ms", medium_avg_ms);
             ("large_avg_ms", large_avg_ms)] in
  (* Save results *)
  json_dump ["benchmark_results.json"] (Some 2%nat) (json_of_results results) ;;;
  print [Lit (nl +:+ "✓ Results saved to benchmark_results.json")] ;;;
  ret results.

(** The body of the [try] statement of [run_benchmarks]; it returns the
    local [results] as it stands when the block ends. *)
Definition benchmark_suite (temp_dir : path) (results : results_t) : M results_t :=
  (* Test 1: Small project *)
  print [Lit (nl +:+ "BENCHMARK 1: Small Project (10 tables, 20 visuals)")] ;;;
  print [Lit (rule "-")] ;;;
  project_path_small <- create_performance_test_project temp_dir 10 20 5 true ;;
  let connector := PowerBIPBIPConnector false in
  let2 elapsed, connector <-
    benchmark_operation "Load project" (call (load_project project_path_small connector)) ;;
  let results := append results "load_small" elapsed in
  let2 elapsed, connector <-
    benchmark_operation "Validate TMDL syntax" (call (validate_tmdl_syntax connector)) ;;
  let results := append results "validate_small" elapsed in
  let2 elapsed, connector <-
    benchmark_operation "Fix DAX quoting" (call (fix_all_dax_quoting connector)) ;;
  let results := append results "fix_dax_small" elapsed in
  let2 elapsed, connector <-
    benchmark_operation "Rename table"
      (call (rename_table_in_files "Table_001" "Renamed Table" connector)) ;;
  let results := append results "rename_table_small" elapsed in
  (* Test 2: Medium project *)
  print [Lit (nl +:+ "BENCHMARK 2: Medium Project (50 tables, 100 visuals)")] ;;;
  print [Lit (rule "-")] ;;;
  project_path_medium <- create_performance_test_project temp_dir 50 100 10 true ;;
  let connector2 := PowerBIPBIPConnector false in
  let2 elapsed, connector2 <-
    benchmark_operation "Load project" (call (load_project project_path_medium connector2)) ;;
  let results := append results "load_medium" elapsed in
  let2 elapsed, connector2 <-
    benchmark_operation "Validate TMDL syntax" (call (validate_tmdl_syntax connector2)) ;;
  let results := append results "validate_medium" elapsed in
  let2 elapsed, connector2 <-
    benchmark_operation "Fix DAX quoting" (call (fix_all_dax_quoting connector2)) ;;
  let results := append results "fix_dax_medium" elapsed in
  (* Test 3: Large project *)
  print [Lit (nl +:+ "BENCHMARK 3: Large Project (200 tables, 500 visuals)")] ;;;
  print [Lit (rule "-")] ;;;
  project_path_large <- create_performance_test_project temp_dir 200 500 15 true ;;
  let connector3 := PowerBIPBIPConnector false in
  let2 elapsed, connector3 <-
    benchmark_operation "Load project" (call (load_project project_path_large connector3)) ;;
  let results := append results "load_large" elapsed in
  let2 elapsed, connector3 <-
    benchmark_operation "Validate TMDL syntax" (call (validate_tmdl_syntax connector3)) ;;
  let results := append results "validate_large" elapsed in
  let2 elapsed, connector3 <-
    benchmark_operation "Fix DAX quoting" (call (fix_all_dax_quoting connector3)) ;;
  let results := append results "fix_dax_large" elapsed in
  summary_analysis results.

(** [run_benchmarks] *)
Definition run_benchmarks : M unit :=
  print [Lit (nl +:+ rule "=")] ;;;
  print [Lit "POWER BI PBIP CONNECTOR - PERFORMANCE BENCHMARKS"] ;;;
  print [Lit (rule "=")] ;;;
  let results := Results [] [] in
  temp_dir <- mkdtemp "pbip_perf_test_" ;;
  try_finally
    (benchmark_suite temp_dir results ;;; ret tt)
    ((* Cleanup *)
     rmtree_ignore_errors temp_dir).

End Program.

(** ** Vocabulary of the specification *)

(** The number a string of decimal digits denotes, leading zeros allowed. *)
Definition parse_decimal (s : string) : option N :=
  option_map N.of_uint (NilEmpty.uint_of_string s).

Fixpoint string_forall (P : ascii -> bool) (s : string) : bool :=
  match s with
  | EmptyString => true
  | String c s' => P c && string_forall P s'
  end.

Definition is_digit (c : ascii) : bool :=
  match Ascii.is_nat c with Some _ => true | None => false end.

Definition is_newline (c : ascii) : bool := Ascii.eqb c (ascii_of_nat 10).
Definition is_space (c : ascii) : bool := Ascii.eqb c " ".

Definition no_newline (s : string) : bool := string_forall (fun c => negb (is_newline c)) s.
Definition no_space (s : string) : bool := string_forall (fun c => negb (is_space c)) s.
Definition has_space (s : string) : bool := negb (no_space s).

(** [s.split("\n")]. *)
Fixpoint split_lines (s : string) : list string :=
  match s with
  | EmptyString => [""]
  | String c s' =>
      if is_newline c then "" :: split_lines s'
      else match split_lines s' with
           | l :: ls => String c l :: ls
           | [] => [String c ""]
           end
  end.

(** A line that defines a measure, and the measure definitions of a file. *)
Definition is_measure_def (l : string) : bool := String.prefix "    measure " l.

Definition measure_defs (c : content) : list string :=
  match c with
  | Text s => List.filter is_measure_def (split_lines s)
  | JsonDoc _ _ => []
  end.

(** The table a table file declares: what follows [table ] on its first line. *)
Definition declared_table (c : content) : option string :=
  match c with
  | Text s =>
      match split_lines s with
      | l :: _ => if String.prefix "table " l then Some (String.substring 6 (String.length l - 6) l) else None
      | [] => None
      end
  | JsonDoc _ _ => None
  end.

(** The members of a JSON object, by key. *)
Fixpoint assoc (k : string) (fields : list (string * json)) : option json :=
  match fields with
  | [] => None
  | (k', v) :: rest => if String.eqb k k' then Some v else assoc k rest
  end.

Definition member (k : string) (v : json) : option json :=
  match v with
  | JObj fields => assoc k fields
  | _ => None
  end.

Fixpoint at_keys (ks : list string) (v : json) : option json :=
  match ks with
  | [] => Some v
  | k :: ks' =>
      match member k v with
      | Some v' => at_keys ks' v'
      | None => None
      end
  end.

(** The data projections of a visual descriptor: [config.projections.Values]. *)
Definition projections (c : content) : option (list json) :=
  match c with
  | JsonDoc _ v =>
      match at_keys ["config"; "projections"; "Values"] v with
      | Some (JArr items) => Some items
      | _ => None
      end
  | Text _ => None
  end.

(** A projection of column [column] of table [table]. *)
Definition source_ref (table column : string) : json :=
  JObj [("SourceRef", JObj [("Entity", JStr table); ("Property", JStr column)])].

(** The entries directly inside a directory. *)
Definition child_of (d p : path) : Prop := ∃ name, p = d // name.

Definition is_child (d p : path) : bool :=
  match last p with
  | Some name => bool_decide (p = d // name)
  | None => false
  end.

(** [os.listdir]-like views: the files and the sub-directories of [d]. *)
Definition files_in (f : filesystem) (d : path) : gset path :=
  filter (fun p => is_child d p) (dom (files f)).

Definition subdirs_in (f : filesystem) (d : path) : gset path :=
  filter (fun p => is_child d p) (dirs f).

(** The files called [name] anywhere beneath [d]. *)
Definition files_named (f : filesystem) (d : path) (name : string) : gset path :=
  filter (fun p => d `prefix_of` p ∧ last p = Some name) (dom (files f)).

(** Nothing exists at or beneath [d]. *)
Definition absent (f : filesystem) (d : path) : Prop :=
  ∀ p, p ∈ entries f → ¬ d `prefix_of` p.

(** [ceil(a / b)] for positive [b]. *)
Definition ceil_div (a b : Z) : Z := - ((- a) / b).

(** Assumptions on the environment under which a run meets no failure. *)
Definition no_io_faults `{Environment} : Prop := ∀ k, io_fault k = None.

Definition never_raises `{Environment}
    (method : filesystem -> result connector * filesystem) : Prop :=
  ∀ f, ∃ c, (method f).1 = Ok c.

Definition connector_never_raises `{Environment} : Prop :=
  ∀ c, (∀ p, never_raises (load_project p c))
       ∧ never_raises (validate_tmdl_syntax c)
       ∧ never_raises (fix_all_dax_quoting c)
       ∧ (∀ old new, never_raises (rename_table_in_files old new c)).

(** The world after [k] successful filesystem calls of combined effect
    [effect]. *)
Definition advance (effect : filesystem -> filesystem) (k : nat) (w : world) : world :=
  World (effect (fs w)) (k + io_calls w) (clock_reads w) (stdout w) (rmtree_log w).


(** What one round of the loop over the visuals does to the filesystem. *)
Definition write_visual (temp_dir : path) (num_tables : Z) (f : filesystem) (v : Z) : filesystem :=
  put_file (visual_file temp_dir v)
           (JsonDoc (Some 2%nat) (visual_content (v mod num_tables + 1)))
           (add_dirs (visual_dir temp_dir v) f).

(** The effect of [create_performance_test_project] on the filesystem when no
    call fails. *)
Definition fixture_tree (temp_dir : path) (num_tables num_visuals avg_table_size_kb : Z)
    (use_pbir_enhanced : bool) (f : filesystem) : filesystem :=
  let f := add_dirs (tables_dir temp_dir) f in
  let f := add_dirs (relationships_dir temp_dir) f in
  let f := add_dirs (report_dir temp_dir) f in
  let f := put_file (pbip_file temp_dir) (Text (version_manifest "1.0")) f in
  let f := foldl (fun f i => put_file (table_file temp_dir i)
                               (Text (table_content avg_table_size_kb i)) f)
                 f (range num_tables) in
  let f := foldl (fun f i => put_file (rel_file temp_dir i) (Text (rel_content i)) f)
                 f (range (num_tables - 1)) in
  if use_pbir_enhanced then
    let f := add_dirs (pages_dir temp_dir) f in
    let f := put_file (definition_dir temp_dir // "report.json")
                      (Text (version_manifest "2.0")) f in
    let f := put_file (pages_dir temp_dir // "pages.json") (JsonDoc None pages_json) f in
    foldl (write_visual temp_dir num_tables) f (range num_visuals)
  else
    put_file (report_dir temp_dir // "report.json") (JsonDoc None report_json) f.

(** Writing the files [p x] with contents [c x], for [x] along [l]. *)
Definition insert_all {A} (p : A -> path) (c : A -> content)
    (m : gmap path content) (l : list A) : gmap path content :=
  foldl (fun m x => <[p x := c x]> m) m l.

(** The files and the directories the generator creates. *)
Definition fixture_files (temp_dir : path) (num_tables num_visuals : Z)
    (use_pbir_enhanced : bool) : list path :=
  pbip_file temp_dir ::
  (table_file temp_dir <$> range num_tables) ++
  (rel_file temp_dir <$> range (num_tables - 1)) ++
  (if use_pbir_enhanced then
     definition_dir temp_dir // "report.json" ::
     pages_dir temp_dir // "pages.json" ::
     (visual_file temp_dir <$> range num_visuals)
   else [report_dir temp_dir // "report.json"]).

Definition fixture_dirs (temp_dir : path) (num_visuals : Z)
    (use_pbir_enhanced : bool) : list path :=
  tables_dir temp_dir :: relationships_dir temp_dir :: report_dir temp_dir ::
  (if use_pbir_enhanced then
     pages_dir temp_dir :: (visual_dir temp_dir <$> range num_visuals)
   else []).

Definition table_text (avg_table_size_kb i : Z) : content :=
  Text (table_content avg_table_size_kb i).

Definition rel_text (i : Z) : content := Text (rel_content i).

Definition visual_doc (num_tables v : Z) : content :=
  JsonDoc (Some 2%nat) (visual_content (v mod num_tables + 1)).

(** The two measure definitions of table [i]. *)
Definition measure_count (i : Z) : string :=
  "    measure MeasureCount = COUNTROWS(" +:+ table_name i +:+ ")".
Definition measure_sum (i : Z) : string :=
  "    measure MeasureSum = SUM(" +:+ table_name i +:+ "[Column_01])".


(** A world and an environment to try the statements on: an empty disk, a
    clock that reads [0, 1, 4, 9, ...], and a connector that does nothing. *)
Definition empty_world : world := World (Filesystem ∅ ∅) 0 0 [] [].

Definition idle (c : unit) (f : filesystem) : result unit * filesystem := (Ok c, f).

Definition quiet : Environment := {|
  io_fault := fun _ => None;
  perf_counter_at := fun k => float_of_int (Z.of_nat (k * k));
  undeletable := fun _ => false;
  gettempdir := ["tmp"];
  mkdtemp_suffix := fun _ => "a1b2c3";
  connector := unit;
  PowerBIPBIPConnector := fun _ => tt;
  load_project := fun _ => idle;
  validate_tmdl_syntax := idle;
  fix_all_dax_quoting := idle;
  rename_table_in_files := fun _ _ => idle;
|}.

(** [sub] occurs in [s]. *)
Definition is_substring (sub s : string) : Prop :=
  ∃ pre post, s = pre +:+ sub +:+ post.

(** The three tier groups, and a sample that lies in more than one of them. *)
Definition tier_groups (bs : list sample) : list (list sample) :=
  [small_ops bs; medium_ops bs; large_ops bs].

Definition in_at_most_one_tier (bs : list sample) (b : sample) : Prop :=
  ∀ i j g h, tier_groups bs !! i = Some g → tier_groups bs !! j = Some h →
             b ∈ g → b ∈ h → i = j.

(** The world after [print(l)]. *)
Definition say (l : line) (w : world) : world :=
  World (fs w) (io_calls w) (clock_reads w) (stdout w ++ [l]) (rmtree_log w).

(** What the block "Scaling analysis" prints for a scaling factor. *)
Definition scaling_trace (scaling_factor : pynum) : list line :=
  [[Lit (nl +:+ "Scaling Factor (Large vs Small): "); Fixed 1 scaling_factor; Lit "x"];
   [Lit "Table growth: 10 -> 200 (20x)"];
   [Lit "Time growth: ~"; Fixed 1 scaling_factor; Lit "x"];
   growth_msg scaling_factor].

(** The milliseconds between the clock readings number [k] and [k + 1]. *)
Definition elapsed_at `{Environment} (k : nat) : float :=
  ((perf_counter_at (S k) - perf_counter_at k) * float_of_int 1000)%float.

(** The mean of the times of a group, in floating point arithmetic. *)
Definition float_mean (ops : list sample) : float :=
  (fold_left PrimFloat.add (map time_ms ops) (float_of_int 0)
   / float_of_int (Z.of_nat (length ops)))%float.

(** The summary record of a sample sequence whose three groups have a
    sample each. *)
Definition summary_of (bs : list sample) : list (string * pynum) :=
  [("small_avg_ms", PyFloat (float_mean (small_ops bs)));
   ("medium_avg_ms", PyFloat (float_mean (medium_ops bs)));
   ("large_avg_ms", PyFloat (float_mean (large_ops bs)))].

(** What the block "Summary analysis" prints when it completes. *)
Definition summary_trace (bs : list sample) (scaling_factor : pynum) : list line :=
  [[Lit (nl +:+ rule "=")];
   [Lit "PERFORMANCE SUMMARY"];
   [Lit (rule "=")];
   [Lit (nl +:+ "Small Project Average: "); Fixed 2 (PyFloat (float_mean (small_ops bs))); Lit "ms"];
   [Lit "Medium Project Average: "; Fixed 2 (PyFloat (float_mean (medium_ops bs))); Lit "ms"];
   [Lit "Large Project Average: "; Fixed 2 (PyFloat (float_mean (large_ops bs))); Lit "ms"]]
  ++ scaling_trace scaling_factor
  ++ [[Lit (nl +:+ "✓ Results saved to benchmark_results.json")]].

(** The artifact of a run. *)
Definition artifact_path : path := ["benchmark_results.json"].

Definition artifact_of (r : results_t) : content :=
  JsonDoc (Some 2%nat) (json_of_results r).

(** The scaling factor of a sample sequence, as the run computes it. *)
Definition scaling_factor_of (bs : list sample) : pynum :=
  if (0 <? float_mean (small_ops bs))%float
  then PyFloat (float_mean (large_ops bs) / float_mean (small_ops bs))
  else PyInt 0.

(** The ten samples of a run that starts when the clock was read [c] times. *)
Definition run_samples `{Environment} (c : nat) : list sample :=
  [Sample "load_small" (elapsed_at c);
   Sample "validate_small" (elapsed_at (2 + c));
   Sample "fix_dax_small" (elapsed_at (4 + c));
   Sample "rename_table_small" (elapsed_at (6 + c));
   Sample "load_medium" (elapsed_at (8 + c));
   Sample "validate_medium" (elapsed_at (10 + c));
   Sample "fix_dax_medium" (elapsed_at (12 + c));
   Sample "load_large" (elapsed_at (14 + c));
   Sample "validate_large" (elapsed_at (16 + c));
   Sample "fix_dax_large" (elapsed_at (18 + c))].

(** A computation that leaves the log of [rmtree] calls alone. *)
Definition keeps_log {A} (m : M A) : Prop :=
  ∀ w, rmtree_log (m w).2 = rmtree_log w.

(** The members of the summary record of an artifact. *)
Definition summary_members (c : content) : option (list (string * json)) :=
  match c with
  | JsonDoc _ v =>
      match member "summary" v with
      | Some (JObj fields) => Some fields
      | _ => None
      end
  | Text _ => None
  end.


(** The world once [run_benchmarks] has printed its banner. *)
Definition banner (w : world) : world :=
  say [Lit (rule "=")]
    (say [Lit "POWER BI PBIP CONNECTOR - PERFORMANCE BENCHMARKS"]
       (say [Lit (nl +:+ rule "=")] w)).

(** The world after [shutil.rmtree(root, ignore_errors=True)]. *)
Definition cleaned `{Environment} (root : path) (w : world) : world :=
  World (remove_tree root (fs w)) (io_calls w) (clock_reads w) (stdout w)
        (rmtree_log w ++ [root]).

(** The outcome of [run_benchmarks] for an outcome of the [try] block. *)
Definition outcome_of {A} (r : result A) : result unit :=
  match r with
  | Ok _ => Ok tt
  | Raise e => Raise e
  end.

(** A record with a textual member, as a growth classification would be. *)
Definition has_text_member (fields : list (string * json)) : Prop :=
  ∃ k text, (k, JStr text) ∈ fields.

(** An environment whose filesystem call number [n] fails, and one whose
    connector cannot validate. *)
Definition disk_full_at (n : nat) : Environment := {|
  io_fault := fun k => if Nat.eqb k n then Some (OSError "No space left on device") else None;
  perf_counter_at := fun k => float_of_int (Z.of_nat (k * k));
  undeletable := fun _ => false;
  gettempdir := ["tmp"];
  mkdtemp_suffix := fun _ => "a1b2c3";
  connector := unit;
  PowerBIPBIPConnector := fun _ => tt;
  load_project := fun _ => idle;
  validate_tmdl_syntax := idle;
  fix_all_dax_quoting := idle;
  rename_table_in_files := fun _ _ => idle;
|}.

Definition invalid_model (c : unit) (f : filesystem) : result unit * filesystem :=
  (Raise (ConnectorError "invalid TMDL"), f).

Definition failing_validation : Environment := {|
  io_fault := fun _ => None;
  perf_counter_at := fun k => float_of_int (Z.of_nat (k * k));
  undeletable := fun _ => false;
  gettempdir := ["tmp"];
  mkdtemp_suffix := fun _ => "a1b2c3";
  connector := unit;
  PowerBIPBIPConnector := fun _ => tt;
  load_project := fun _ => idle;
  validate_tmdl_syntax := invalid_model;
  fix_all_dax_quoting := idle;
  rename_table_in_files := fun _ _ => idle;
|}.

(** ** Further vocabulary: the tree as a whole *)

(** The empty disk. *)
Definition empty_fs : filesystem := Filesystem ∅ ∅.

(** A file lies in a directory that exists; a tree is well formed when all
    its files do. *)
Definition in_a_directory (f : filesystem) (p : path) : Prop :=
  ∃ d name, p = d // name ∧ d ∈ dirs f.

Definition well_formed (f : filesystem) : Prop :=
  ∀ p, p ∈ dom (files f) → in_a_directory f p.

(** A line that defines a column. *)
Definition is_column_def (l : string) : bool := String.prefix "    column " l.

(** A computation that only adds to the disk: it keeps every directory and
    every file name, and leaves the files outside [S] as they are. *)
Definition only_writes {A} (S : path -> Prop) (m : M A) : Prop :=
  ∀ w, dirs (fs w) ⊆ dirs (fs (m w).2)
       ∧ dom (files (fs w)) ⊆ dom (files (fs (m w).2))
       ∧ ∀ q, ¬ S q → files (fs (m w).2) !! q = files (fs w) !! q.

(** A computation that neither reads the clock nor prints. *)
Definition silent {A} (m : M A) : Prop :=
  ∀ w, clock_reads (m w).2 = clock_reads w ∧ stdout (m w).2 = stdout w.

(** A well-formed tree in which the directories [ds] exist. *)
Definition tree_ok (ds : list path) (f : filesystem) : Prop :=
  well_formed f ∧ ∀ d, d ∈ ds → d ∈ dirs f.

(** From a disk that satisfies [P], the computation ends on one that
    satisfies [Q] when it returns, and on a well-formed one when it raises. *)
Definition maintains {A} (P Q : filesystem -> Prop) (m : M A) : Prop :=
  ∀ w, P (fs w) →
       match m w with
       | (Ok _, w') => Q (fs w')
       | (Raise _, w') => well_formed (fs w')
       end.

(** In how many tier groups a sample is put. *)
Definition tier_count (b : sample) : nat :=
  ((if contains "small" (operation b) then 1 else 0)
   + (if contains "medium" (operation b) then 1 else 0)
   + (if contains "large" (operation b) then 1 else 0))%nat.

(** What the block "Summary analysis" has printed when it comes to save the
    results. *)
Definition summary_trace_before_save (bs : list sample) (scaling_factor : pynum) : list line :=
  [[Lit (nl +:+ rule "=")];
   [Lit "PERFORMANCE SUMMARY"];
   [Lit (rule "=")];
   [Lit (nl +:+ "Small Project Average: "); Fixed 2 (PyFloat (float_mean (small_ops bs))); Lit "ms"];
   [Lit "Medium Project Average: "; Fixed 2 (PyFloat (float_mean (medium_ops bs))); Lit "ms"];
   [Lit "Large Project Average: "; Fixed 2 (PyFloat (float_mean (large_ops bs))); Lit "ms"]]
  ++ scaling_trace scaling_factor.

(** The ten lines that define the five columns of a table. *)
Definition column_lines : list string :=
  ["    column Column_01"; "        dataType: string";
   "    column Column_02"; "        dataType: string";
   "    column Column_03"; "        dataType: string";
   "    column Column_04"; "        dataType: string";
   "    column Column_05"; "        dataType: string"].

(** The line that confirms that the results were saved. *)
Definition saved_line : line :=
  [Lit (nl +:+ "✓ Results saved to benchmark_results.json")].
#[local] Set Warnings "-clear-no-such-hyp".

(** ** Strings: formatting of integers *)

Lemma append_cons c (s t : string) : String c s +:+ t = String c (s +:+ t).
Proof. reflexivity. Qed.

Lemma append_nil_l (s : string) : "" +:+ s = s.
Proof. reflexivity. Qed.

Lemma append_nil_r (s : string) : s +:+ "" = s.
Proof. induction s as [|c s IH]; [done|]. by rewrite append_cons, IH. Qed.

Lemma append_assoc (a b c : string) : (a +:+ b) +:+ c = a +:+ b +:+ c.
Proof. induction a as [|x a IH]; [done|]. by rewrite !append_cons, IH. Qed.

Lemma string_forall_app P (a b : string) :
  string_forall P (a +:+ b) = string_forall P a && string_forall P b.
Proof.
  induction a as [|c a IH]; [done|].
  rewrite append_cons. cbn. rewrite IH. by destruct (P c).
Qed.

Lemma str_mul_succ s (n : nat) : str_mul s (Z.of_nat (S n)) = s +:+ str_mul s (Z.of_nat n).
Proof. unfold str_mul. rewrite !Nat2Z.id. done. Qed.

Lemma str_mul_of_nat s n : str_mul s n = str_mul s (Z.of_nat (Z.to_nat n)).
Proof. unfold str_mul. by rewrite Nat2Z.id. Qed.

Lemma string_forall_str_mul P s n :
  string_forall P s = true → string_forall P (str_mul s n) = true.
Proof.
  intros Hs. rewrite str_mul_of_nat. induction (Z.to_nat n) as [|k IH]; [done|].
  by rewrite str_mul_succ, string_forall_app, Hs, IH.
Qed.

Lemma digits_of_uint (d : Decimal.uint) :
  string_forall is_digit (NilEmpty.string_of_uint d) = true.
Proof. induction d; cbn; auto. Qed.

Lemma digits_decimal n : string_forall is_digit (decimal n) = true.
Proof.
  unfold decimal, NilZero.string_of_uint.
  destruct (N.to_uint n) eqn:Hn; try (rewrite <- Hn; apply digits_of_uint); done.
Qed.

Lemma digits_zfill w s :
  string_forall is_digit s = true → string_forall is_digit (zfill w s) = true.
Proof.
  intros Hs. unfold zfill. rewrite string_forall_app, Hs.
  by rewrite string_forall_str_mul.
Qed.

Lemma format_d_nonneg w z : 0 <= z → format_d w z = zfill w (decimal (Z.to_N z)).
Proof.
  intros Hz. unfold format_d. destruct (Z.ltb_spec z 0); [lia|].
  do 2 f_equal. lia.
Qed.

(** A non-negative number is printed with decimal digits only. *)
Lemma digits_format_d w z : 0 <= z → string_forall is_digit (format_d w z) = true.
Proof. intros. rewrite format_d_nonneg by done. apply digits_zfill, digits_decimal. Qed.

Lemma parse_decimal_zero s : parse_decimal (String "0" s) = parse_decimal s.
Proof. unfold parse_decimal. cbn. by destruct (NilEmpty.uint_of_string s). Qed.

Lemma parse_decimal_zeros (k : nat) s :
  parse_decimal (str_mul "0" (Z.of_nat k) +:+ s) = parse_decimal s.
Proof.
  induction k as [|k IH]; [done|].
  by rewrite str_mul_succ, !append_cons, append_nil_l, parse_decimal_zero.
Qed.

Lemma parse_decimal_decimal n : parse_decimal (decimal n) = Some n.
Proof.
  unfold parse_decimal, decimal, NilZero.string_of_uint.
  pose proof (DecimalN.Unsigned.of_to n) as Hn.
  destruct (N.to_uint n) eqn:Hd;
    try (rewrite <- Hd, NilEmpty.usu; cbn [option_map]; by rewrite Hd, Hn).
  cbn in *. by rewrite <- Hn.
Qed.

(** Reading back what [format_d] printed gives the number. *)
Lemma parse_format_d w z : 0 <= z → parse_decimal (format_d w z) = Some (Z.to_N z).
Proof.
  intros. rewrite format_d_nonneg by done. unfold zfill.
  by rewrite parse_decimal_zeros, parse_decimal_decimal.
Qed.

Lemma format_d_inj w z1 z2 :
  0 <= z1 → 0 <= z2 → format_d w z1 = format_d w z2 → z1 = z2.
Proof.
  intros H1 H2 Heq. apply (f_equal parse_decimal) in Heq.
  rewrite !parse_format_d in Heq by done. injection Heq. lia.
Qed.

(** ** Paths *)

Lemma pjoin_inj (d1 d2 : path) n1 n2 : d1 // n1 = d2 // n2 → d1 = d2 ∧ n1 = n2.
Proof. unfold pjoin. intros H. by apply app_inj_tail in H. Qed.

Lemma last_pjoin (d : path) n : last (d // n) = Some n.
Proof. unfold pjoin. apply last_snoc. Qed.

Lemma is_child_spec (d p : path) : is_child d p ↔ child_of d p.
Proof.
  unfold is_child, child_of. split.
  - destruct (last p) as [name|]; [|done]. intros H%bool_decide_unpack. eauto.
  - intros [name ->]. rewrite last_pjoin. by apply bool_decide_pack.
Qed.

Lemma elem_of_ancestors (p q : path) : q ∈ ancestors p ↔ q `prefix_of` p.
Proof.
  revert q. induction p as [|c p IH]; intros q; cbn.
  - rewrite list_elem_of_singleton. split; [intros ->; done|apply prefix_nil_inv].
  - rewrite elem_of_cons, list_elem_of_fmap. split.
    + intros [->|(q' & -> & Hq)]; [apply prefix_nil|]. apply prefix_cons, IH, Hq.
    + destruct q as [|c' q]; [by left|]. intros Hpre. right.
      pose proof (prefix_cons_inv_1 _ _ _ _ Hpre) as ->.
      exists q. split; [done|]. by apply IH, (prefix_cons_inv_2 _ _ _ _ Hpre).
Qed.

(** ** Running computations *)

Lemma bind_ok {A B} (m : M A) (k : A -> M B) w a w' :
  m w = (Ok a, w') → bind m k w = k a w'.
Proof. unfold bind. by intros ->. Qed.

Lemma bind_assoc {A B C} (m : M A) (k1 : A -> M B) (k2 : B -> M C) w :
  bind (bind m k1) k2 w = bind m (fun a => bind (k1 a) k2) w.
Proof. unfold bind. by destruct (m w) as [[a|e] w']. Qed.

Lemma bind_lift_ok {A B} (a : A) (k : A -> M B) w : bind (lift (Ok a)) k w = k a w.
Proof. done. Qed.

Lemma bind_lift_raise {A B} e (k : A -> M B) w :
  bind (lift (Raise e)) k w = (Raise e, w).
Proof. done. Qed.

Lemma bind_ret {A B} (a : A) (k : A -> M B) w : bind (ret a) k w = k a w.
Proof. done. Qed.

Lemma advance_advance g j f k w :
  advance g j (advance f k w) = advance (g ∘ f) (j + k) w.
Proof. unfold advance. cbn. f_equal. lia. Qed.

Lemma advance_ext f g k w : (∀ x, f x = g x) → advance f k w = advance g k w.
Proof. intros H. unfold advance. by rewrite H. Qed.

(** One step of a run: the head computation of a sequence returns. *)
Tactic Notation "run_step" uconstr(H) :=
  rewrite ?bind_assoc, (bind_ok _ _ _ _ _ H).

Lemma py_mod_ok a b : b ≠ 0 → py_mod a b = Ok (a mod b).
Proof. intros. unfold py_mod. by destruct (Z.eqb_spec b 0). Qed.

Section Faultless.
Context {E : Environment}.
Hypothesis Hio : no_io_faults.

Lemma io_ok effect w : io effect w = (Ok tt, advance effect 1 w).
Proof. unfold io. by rewrite Hio. Qed.

Lemma makedirs_ok p w : makedirs p w = (Ok tt, advance (add_dirs p) 1 w).
Proof. apply io_ok. Qed.

Lemma write_text_ok p s w : write_text p s w = (Ok tt, advance (put_file p (Text s)) 1 w).
Proof. apply io_ok. Qed.

Lemma json_dump_ok p i v w :
  json_dump p i v w = (Ok tt, advance (put_file p (JsonDoc i v)) 1 w).
Proof. apply io_ok. Qed.

Lemma for_each_io {A} (effect : A -> filesystem -> filesystem) (l : list A) w :
  for_each l (fun x => io (effect x)) w
  = (Ok tt, advance (fun f => foldl (fun f x => effect x f) f l) (length l) w).
Proof.
  revert w. induction l as [|x l IH]; intros w; cbn [for_each].
  - destruct w as [[]]. done.
  - rewrite (bind_ok _ _ _ _ _ (io_ok _ _)), IH, advance_advance.
    cbn. f_equal. f_equal. lia.
Qed.

Lemma for_each_visual temp_dir num_tables (l : list Z) w :
  num_tables ≠ 0 →
  for_each l (fun v =>
      makedirs (visual_dir temp_dir v) ;;;
      m <- lift (py_mod v num_tables) ;;
      json_dump (visual_file temp_dir v) (Some 2%nat) (visual_content (m + 1))) w
  = (Ok tt, advance (fun f => foldl (write_visual temp_dir num_tables) f l)
                    (2 * length l) w).
Proof.
  intros Hn. unfold makedirs, json_dump.
  revert w. induction l as [|v l IH]; intros w; cbn [for_each].
  - destruct w as [[]]. done.
  - rewrite !bind_assoc, (bind_ok _ _ _ _ _ (io_ok _ _)), bind_assoc.
    rewrite (py_mod_ok _ _ Hn), bind_lift_ok, (bind_ok _ _ _ _ _ (io_ok _ _)), IH, !advance_advance.
    cbn. f_equal. f_equal. lia.
Qed.

(** Without filesystem failures the generator returns the project directory,
    having applied [fixture_tree]; the modulo by [num_tables] must not be
    by zero when there are visuals to write. *)
Lemma create_performance_test_project_ok temp_dir n v kb enh w :
  (enh = true → 0 < v → n ≠ 0) →
  ∃ k, create_performance_test_project temp_dir n v kb enh w
       = (Ok (project_dir temp_dir), advance (fixture_tree temp_dir n v kb enh) k w).
Proof.
  intros Hn. unfold create_performance_test_project.
  do 3 run_step (makedirs_ok _ _).
  run_step (write_text_ok _ _ _).
  unfold write_text at 1 2.
  do 2 run_step (for_each_io _ _ _).
  destruct enh.
  - run_step (makedirs_ok _ _).
    run_step (write_text_ok _ _ _).
    run_step (json_dump_ok _ _ _ _).
    destruct (decide (0 < v)) as [Hv|Hv].
    + run_step (for_each_visual _ _ _ _ (Hn eq_refl Hv)).
      unfold ret. rewrite !advance_advance. eexists. f_equal.
    + unfold range. rewrite (seqZ_nil 0 v) by lia. cbn [for_each].
      rewrite ?bind_assoc, !bind_ret. unfold ret.
      rewrite !advance_advance. eexists. f_equal.
      apply advance_ext. intros f. unfold fixture_tree, range.
      by rewrite (seqZ_nil 0 v) by lia.
  - run_step (json_dump_ok _ _ _ _).
    unfold ret. rewrite !advance_advance. eexists. f_equal.
Qed.

End Faultless.

(** ** Writing many files *)

Section InsertAll.
Context {A : Type} (p : A -> path) (c : A -> content).

Local Abbreviation insert_all := (insert_all p c).

Lemma dom_insert_all l m :
  dom (insert_all m l) = list_to_set (p <$> l) ∪ dom m.
Proof.
  revert m. induction l as [|x l IH]; intros m; cbn.
  - set_solver.
  - unfold insert_all in IH. rewrite IH, dom_insert_L. set_solver.
Qed.

Lemma lookup_insert_all_ne l m q :
  q ∉ p <$> l → insert_all m l !! q = m !! q.
Proof.
  revert m. induction l as [|x l IH]; intros m Hq; cbn; [done|].
  rewrite fmap_cons, not_elem_of_cons in Hq. destruct Hq as [Hx Hq].
  unfold insert_all in IH. rewrite IH by done. by rewrite lookup_insert_ne.
Qed.

Lemma lookup_insert_all l m x :
  x ∈ l → (∀ y, y ∈ l → p y = p x → y = x) → insert_all m l !! p x = Some (c x).
Proof.
  revert m. induction l as [|y l IH] using rev_ind; intros m Hx Hinj.
  - by apply elem_of_nil in Hx.
  - unfold insert_all. rewrite foldl_snoc.
    destruct (decide (p y = p x)) as [Heq|Hne].
    + rewrite (Hinj y) by (done || set_solver). apply lookup_insert_eq.
    + rewrite lookup_insert_ne by done. apply IH.
      * apply elem_of_app in Hx as [Hx|Hx%list_elem_of_singleton]; [done|].
        by subst.
      * intros z Hz. apply Hinj. set_solver.
Qed.

Lemma files_foldl (step : filesystem -> A -> filesystem) l f :
  (∀ f x, files (step f x) = <[p x := c x]> (files f)) →
  files (foldl step f l) = insert_all (files f) l.
Proof.
  intros Hstep. revert f. induction l as [|x l IH]; intros f; cbn; [done|].
  unfold insert_all in IH. by rewrite IH, Hstep.
Qed.

End InsertAll.

Lemma dirs_foldl_put {A} (p : A -> path) (c : A -> content) l f :
  dirs (foldl (fun f x => put_file (p x) (c x) f) f l) = dirs f.
Proof. revert f. induction l as [|x l IH]; intros f; cbn; [done|]. by rewrite IH. Qed.

Lemma dirs_foldl_write_visual temp_dir n l f :
  dirs (foldl (write_visual temp_dir n) f l)
  = ⋃ ((fun v => list_to_set (ancestors (visual_dir temp_dir v))) <$> l) ∪ dirs f.
Proof.
  revert f. induction l as [|x l IH]; intros f; cbn.
  - set_solver.
  - rewrite IH. cbn. set_solver.
Qed.

(** ** Strings: cancellation and literal prefixes *)

Lemma length_append (a b : string) :
  String.length (a +:+ b) = (String.length a + String.length b)%nat.
Proof. induction a as [|x a IH]; [done|]. rewrite append_cons. cbn. by rewrite IH. Qed.

Lemma append_inv_tail (a b c : string) : a +:+ c = b +:+ c → a = b.
Proof.
  revert b. induction a as [|x a IH]; intros [|y b] H; [done| | |].
  - pose proof (f_equal String.length H) as Hlen.
    rewrite append_nil_l, append_cons in Hlen. cbn in Hlen.
    rewrite length_append in Hlen. lia.
  - pose proof (f_equal String.length H) as Hlen.
    rewrite append_nil_l, append_cons in Hlen. cbn in Hlen.
    rewrite length_append in Hlen. lia.
  - rewrite !append_cons in H. injection H as -> H. f_equal. by apply IH.
Qed.

Lemma append_inv_head (a b c : string) : a +:+ b = a +:+ c → b = c.
Proof. apply String.app_inj. Qed.

(** ** The tree the generator builds *)

Lemma files_fixture_tree temp_dir n v kb enh f :
  files (fixture_tree temp_dir n v kb enh f)
  = let m := <[pbip_file temp_dir := Text (version_manifest "1.0")]> (files f) in
    let m := insert_all (table_file temp_dir) (table_text kb) m (range n) in
    let m := insert_all (rel_file temp_dir) rel_text m (range (n - 1)) in
    if enh then
      insert_all (visual_file temp_dir) (visual_doc n)
        (<[pages_dir temp_dir // "pages.json" := JsonDoc None pages_json]>
           (<[definition_dir temp_dir // "report.json" := Text (version_manifest "2.0")]> m))
        (range v)
    else <[report_dir temp_dir // "report.json" := JsonDoc None report_json]> m.
Proof.
  unfold fixture_tree. destruct enh; cbn zeta.
  - rewrite (files_foldl (visual_file temp_dir) (visual_doc n)) by done.
    cbn [files put_file add_dirs].
    rewrite (files_foldl (rel_file temp_dir) rel_text) by done.
    by rewrite (files_foldl (table_file temp_dir) (table_text kb)) by done.
  - cbn [files put_file add_dirs].
    rewrite (files_foldl (rel_file temp_dir) rel_text) by done.
    by rewrite (files_foldl (table_file temp_dir) (table_text kb)) by done.
Qed.

Lemma dom_fixture_tree temp_dir n v kb enh f :
  dom (files (fixture_tree temp_dir n v kb enh f))
  = list_to_set (fixture_files temp_dir n v enh) ∪ dom (files f).
Proof.
  rewrite files_fixture_tree. unfold fixture_files. destruct enh; cbn zeta.
  - rewrite dom_insert_all, !dom_insert_L, !dom_insert_all, dom_insert_L.
    rewrite list_to_set_cons, !list_to_set_app_L, !list_to_set_cons. set_solver.
  - rewrite dom_insert_L, !dom_insert_all, dom_insert_L.
    rewrite list_to_set_cons, !list_to_set_app_L. set_solver.
Qed.

Lemma dirs_fixture_tree temp_dir n v kb enh f :
  dirs (fixture_tree temp_dir n v kb enh f)
  = list_to_set (fixture_dirs temp_dir v enh ≫= ancestors) ∪ dirs f.
Proof.
  unfold fixture_tree, fixture_dirs. destruct enh; cbn zeta.
  - rewrite dirs_foldl_write_visual. cbn [dirs put_file add_dirs].
    rewrite !dirs_foldl_put. cbn [dirs put_file add_dirs].
    rewrite !bind_cons, !list_to_set_app_L.
    assert (⋃ ((λ v0 : Z, list_to_set (ancestors (visual_dir temp_dir v0))) <$> range v)
            =@{gset path} list_to_set ((visual_dir temp_dir <$> range v) ≫= ancestors)) as ->.
    { induction (range v) as [|x l IH]; [done|].
      cbn. rewrite IH. by rewrite list_to_set_app_L. }
    set_solver.
  - cbn [dirs put_file add_dirs]. rewrite !dirs_foldl_put. cbn [dirs put_file add_dirs].
    rewrite !bind_cons, !list_to_set_app_L. set_solver.
Qed.

(** ** Names and places of the generated files *)

(** Bring two paths below [temp_dir] to the form [temp_dir ++ [c1; ...; cn]],
    with the literal parts of their components spelled out. *)
Ltac unfold_paths_in H :=
  unfold visual_file, visual_dir, table_file, rel_file, pages_dir, definition_dir,
         report_dir, relationships_dir, tables_dir, semantic_dir, pbip_file,
         project_dir, project_name, visual_id, page_id, table_name, pjoin in H;
  rewrite <- ?app_assoc in H; cbn [app] in H;
  rewrite ?append_cons, ?append_nil_l in H.

Ltac unfold_paths :=
  unfold visual_file, visual_dir, table_file, rel_file, pages_dir, definition_dir,
         report_dir, relationships_dir, tables_dir, semantic_dir, pbip_file,
         project_dir, project_name, visual_id, page_id, table_name, pjoin;
  rewrite <- ?app_assoc; cbn [app];
  rewrite ?append_cons, ?append_nil_l.

(** Refute, or take apart, an equation between two such paths. *)
Ltac path_eq H :=
  unfold_paths_in H; apply app_inv_head in H; simplify_eq.

Lemma table_file_inj temp_dir i j :
  0 <= i → 0 <= j → table_file temp_dir i = table_file temp_dir j → i = j.
Proof.
  intros Hi Hj H. path_eq H.
  match goal with H : _ +:+ _ = _ +:+ _ |- _ => apply append_inv_tail in H; rename H into Heq end.
  apply format_d_inj in Heq; lia.
Qed.

Lemma rel_file_inj temp_dir i j :
  0 <= i → 0 <= j → rel_file temp_dir i = rel_file temp_dir j → i = j.
Proof.
  intros Hi Hj H. path_eq H.
  match goal with H : _ +:+ _ = _ +:+ _ |- _ => apply append_inv_tail in H; rename H into Heq end.
  apply format_d_inj in Heq; lia.
Qed.

Lemma visual_file_inj temp_dir i j :
  0 <= i → 0 <= j → visual_file temp_dir i = visual_file temp_dir j → i = j.
Proof.
  intros Hi Hj H. path_eq H.
  match goal with H : format_d 3 _ = format_d 3 _ |- _ => apply format_d_inj in H; lia end.
Qed.

(** ** Lines of a text *)

Lemma string_forall_impl (P Q : ascii -> bool) s :
  (∀ c, P c = true → Q c = true) → string_forall P s = true → string_forall Q s = true.
Proof.
  intros HPQ. induction s as [|c s IH]; [done|]. cbn.
  intros [Hc Hs]%andb_true_iff. by rewrite (HPQ c Hc), IH.
Qed.

Lemma digit_not_newline c : is_digit c = true → negb (is_newline c) = true.
Proof. destruct c as [[] [] [] [] [] [] [] []]; by cbn. Qed.

Lemma digit_not_space c : is_digit c = true → negb (is_space c) = true.
Proof. destruct c as [[] [] [] [] [] [] [] []]; by cbn. Qed.

Lemma no_newline_app a b : no_newline (a +:+ b) = no_newline a && no_newline b.
Proof. apply string_forall_app. Qed.

Lemma no_space_app a b : no_space (a +:+ b) = no_space a && no_space b.
Proof. apply string_forall_app. Qed.

Lemma no_newline_format_d w z : 0 <= z → no_newline (format_d w z) = true.
Proof.
  intros. eapply string_forall_impl; [apply digit_not_newline|]. by apply digits_format_d.
Qed.

Lemma no_space_format_d w z : 0 <= z → no_space (format_d w z) = true.
Proof.
  intros. eapply string_forall_impl; [apply digit_not_space|]. by apply digits_format_d.
Qed.

Lemma split_lines_nonempty s : split_lines s ≠ [].
Proof.
  destruct s as [|c s]; [done|]. cbn.
  destruct (is_newline c); [done|]. by destruct (split_lines s).
Qed.

Lemma split_lines_one s : no_newline s = true → split_lines s = [s].
Proof.
  induction s as [|c s IH]; [done|]. cbn.
  intros [Hc Hs]%andb_true_iff. apply negb_true_iff in Hc. by rewrite Hc, IH.
Qed.

Lemma split_lines_nl (a b : string) :
  split_lines (a +:+ nl +:+ b) = split_lines a ++ split_lines b.
Proof.
  induction a as [|c a IH].
  - done.
  - rewrite append_cons. cbn [split_lines]. rewrite IH.
    destruct (is_newline c); [done|].
    pose proof (split_lines_nonempty a). by destruct (split_lines a).
Qed.

(** The same with the text before the line feed in one piece. *)
Lemma split_lines_line (a b : string) :
  no_newline a = true → split_lines (a +:+ nl +:+ b) = a :: split_lines b.
Proof. intros Ha. by rewrite split_lines_nl, split_lines_one. Qed.

Lemma split_lines_last (a : string) :
  no_newline a = true → split_lines (a +:+ nl) = [a; ""].
Proof.
  intros Ha. replace (a +:+ nl) with (a +:+ nl +:+ "") by (by rewrite append_nil_r).
  by rewrite split_lines_line.
Qed.

(** ** What a table file holds *)

Lemma no_newline_table_name i : 0 <= i → no_newline (table_name i) = true.
Proof.
  intros. unfold table_name. rewrite no_newline_app, no_newline_format_d by lia. done.
Qed.

Lemma no_newline_safe_name i : 0 <= i → no_newline (safe_name i) = true.
Proof.
  intros. unfold safe_name. destruct (negb _).
  - by apply no_newline_table_name.
  - rewrite no_newline_app, no_newline_format_d by lia. done.
Qed.

Lemma no_newline_padding kb : no_newline (padding_per_table kb) = true.
Proof.
  unfold padding_per_table. rewrite no_newline_app.
  unfold no_newline at 2. by rewrite string_forall_str_mul.
Qed.

Lemma padding_not_measure kb : is_measure_def (padding_per_table kb) = false.
Proof.
  unfold padding_per_table. rewrite str_mul_of_nat.
  destruct (Z.to_nat (kb * 100)) as [|k]; [done|]. by rewrite str_mul_succ.
Qed.

Lemma columns_lines :
  split_lines columns
  = ["    column Column_01"; "        dataType: string";
     "    column Column_02"; "        dataType: string";
     "    column Column_03"; "        dataType: string";
     "    column Column_04"; "        dataType: string";
     "    column Column_05"; "        dataType: string"].
Proof. vm_compute. reflexivity. Qed.

Lemma measure_lines i :
  0 <= i →
  split_lines (measure i)
  = if i mod 2 =? 0 then [""; measure_count i; measure_sum i] else [""].
Proof.
  intros Hi. unfold measure. destruct (i mod 2 =? 0); [|done].
  assert (no_newline (measure_count i) = true) as Hc
    by (unfold measure_count; by rewrite !no_newline_app, no_newline_table_name).
  assert (no_newline (measure_sum i) = true) as Hs
    by (unfold measure_sum; by rewrite !no_newline_app, no_newline_table_name).
  transitivity (split_lines ("" +:+ nl +:+ measure_count i +:+ nl +:+ measure_sum i)).
  { unfold measure_count, measure_sum. by rewrite !append_assoc. }
  by rewrite !split_lines_line, split_lines_one.
Qed.

(** The lines of a table file. *)
Lemma table_content_lines kb i :
  0 <= i →
  split_lines (table_content kb i)
  = ("table " +:+ safe_name i) :: split_lines columns ++ split_lines (measure i)
      ++ [padding_per_table kb; ""].
Proof.
  intros Hi. unfold table_content.
  rewrite <- (append_assoc "table "), split_lines_line
    by (by rewrite no_newline_app, no_newline_safe_name).
  rewrite split_lines_nl, split_lines_nl.
  by rewrite split_lines_last by apply no_newline_padding.
Qed.

Lemma table_line_not_measure s : is_measure_def ("table " +:+ s) = false.
Proof. reflexivity. Qed.

Lemma measure_count_is_measure i : is_measure_def (measure_count i) = true.
Proof. reflexivity. Qed.

Lemma measure_sum_is_measure i : is_measure_def (measure_sum i) = true.
Proof. reflexivity. Qed.

Lemma measure_defs_table_text kb i :
  0 <= i →
  measure_defs (table_text kb i)
  = if i mod 2 =? 0 then [measure_count i; measure_sum i] else [].
Proof.
  intros Hi. unfold measure_defs, table_text.
  rewrite table_content_lines, columns_lines, measure_lines by done.
  destruct (i mod 2 =? 0); cbn [app List.filter];
    rewrite table_line_not_measure, padding_not_measure,
      ?measure_count_is_measure, ?measure_sum_is_measure; reflexivity.
Qed.

Lemma prefix_table s : String.prefix "table " ("table " +:+ s) = true.
Proof. by destruct s. Qed.

Lemma substring_all s : substring 0 (String.length s) s = s.
Proof. induction s as [|c s IH]; [done|]. cbn. by rewrite IH. Qed.

Lemma declared_table_table_text kb i :
  0 <= i → declared_table (table_text kb i) = Some (safe_name i).
Proof.
  intros Hi. unfold declared_table, table_text.
  rewrite table_content_lines by done. cbv beta iota.
  rewrite prefix_table. f_equal. rewrite length_append. cbn [String.length].
  replace (6 + String.length (safe_name i) - 6)%nat with (String.length (safe_name i)) by lia.
  apply substring_all.
Qed.

(** ** Looking files up in the generated tree *)

Lemma elem_of_range i n : i ∈ range n ↔ 0 <= i < n.
Proof. unfold range. rewrite elem_of_seqZ. lia. Qed.

Lemma lookup_table_file temp_dir n v kb enh f i :
  0 <= i < n →
  files (fixture_tree temp_dir n v kb enh f) !! table_file temp_dir i
  = Some (table_text kb i).
Proof.
  intros Hi. rewrite files_fixture_tree. cbn zeta.
  assert (insert_all (table_file temp_dir) (table_text kb)
            (<[pbip_file temp_dir := Text (version_manifest "1.0")]> (files f)) (range n)
          !! table_file temp_dir i = Some (table_text kb i)) as Htable.
  { apply lookup_insert_all; [by apply elem_of_range|].
    intros j Hj%elem_of_range Heq. apply table_file_inj in Heq; lia. }
  assert (table_file temp_dir i ∉ rel_file temp_dir <$> range (n - 1)) as Hrel.
  { intros (j & H & _)%list_elem_of_fmap. path_eq H. }
  destruct enh.
  - rewrite lookup_insert_all_ne.
    + rewrite !lookup_insert_ne.
      * by rewrite lookup_insert_all_ne.
      * intros H. path_eq H.
      * intros H. path_eq H.
    + intros (j & H & _)%list_elem_of_fmap. path_eq H.
  - rewrite lookup_insert_ne.
    + by rewrite lookup_insert_all_ne.
    + intros H. path_eq H.
Qed.

Lemma lookup_visual_file temp_dir n v kb f j :
  0 <= j < v →
  files (fixture_tree temp_dir n v kb true f) !! visual_file temp_dir j
  = Some (visual_doc n j).
Proof.
  intros Hj. rewrite files_fixture_tree. cbn zeta.
  apply lookup_insert_all; [by apply elem_of_range|].
  intros i Hi%elem_of_range Heq. apply visual_file_inj in Heq; lia.
Qed.

(** ** Listing the generated tree *)

Lemma elem_of_fixture_files temp_dir n v enh p :
  p ∈ fixture_files temp_dir n v enh ↔
    p = pbip_file temp_dir
    ∨ (∃ i, 0 <= i < n ∧ p = table_file temp_dir i)
    ∨ (∃ i, 0 <= i < n - 1 ∧ p = rel_file temp_dir i)
    ∨ (enh = true ∧ (p = definition_dir temp_dir // "report.json"
                     ∨ p = pages_dir temp_dir // "pages.json"
                     ∨ ∃ j, 0 <= j < v ∧ p = visual_file temp_dir j))
    ∨ (enh = false ∧ p = report_dir temp_dir // "report.json").
Proof.
  unfold fixture_files.
  rewrite elem_of_cons, !elem_of_app, !list_elem_of_fmap.
  setoid_rewrite elem_of_range.
  destruct enh.
  - rewrite !elem_of_cons, list_elem_of_fmap. setoid_rewrite elem_of_range. naive_solver.
  - rewrite list_elem_of_singleton. naive_solver.
Qed.

Lemma elem_of_fixture_dirs temp_dir v enh d :
  d ∈ fixture_dirs temp_dir v enh ↔
    d = tables_dir temp_dir ∨ d = relationships_dir temp_dir ∨ d = report_dir temp_dir
    ∨ (enh = true ∧ (d = pages_dir temp_dir ∨ ∃ j, 0 <= j < v ∧ d = visual_dir temp_dir j)).
Proof.
  unfold fixture_dirs. rewrite !elem_of_cons. destruct enh.
  - rewrite elem_of_cons, list_elem_of_fmap. setoid_rewrite elem_of_range. naive_solver.
  - rewrite elem_of_nil. naive_solver.
Qed.

Lemma elem_of_dirs_fixture_tree temp_dir n v kb enh f q :
  q ∈ dirs (fixture_tree temp_dir n v kb enh f) ↔
    (∃ d, d ∈ fixture_dirs temp_dir v enh ∧ q `prefix_of` d) ∨ q ∈ dirs f.
Proof.
  rewrite dirs_fixture_tree, elem_of_union, elem_of_list_to_set, list_elem_of_bind.
  setoid_rewrite elem_of_ancestors. naive_solver.
Qed.

(** Take apart a prefix relation between two paths below [temp_dir]. *)
Ltac path_prefix H :=
  unfold_paths_in H; apply prefix_app_inv in H;
  repeat
    (let Hhd := fresh "Hhd" in
     pose proof (prefix_cons_inv_1 _ _ _ _ H) as Hhd;
     apply prefix_cons_inv_2 in H;
     simplify_eq);
  try (by apply prefix_nil_not in H).

Lemma project_dir_prefix temp_dir (l : path) :
  project_dir temp_dir `prefix_of` temp_dir ++ "PerfTest" :: l.
Proof. exists l. unfold project_dir, project_name, pjoin. by rewrite <- app_assoc. Qed.

(** A path with a component below the project directory is not there when
    the project directory is absent. *)
Ltac by_absent Habs Hin :=
  exfalso; eapply Habs; [apply Hin|]; unfold_paths; apply project_dir_prefix.

Lemma files_in_tables temp_dir n v kb enh f :
  absent f (project_dir temp_dir) →
  files_in (fixture_tree temp_dir n v kb enh f) (tables_dir temp_dir)
  = list_to_set (table_file temp_dir <$> range n).
Proof.
  intros Habs. apply set_eq. intros p. unfold files_in.
  rewrite elem_of_filter, is_child_spec, dom_fixture_tree, elem_of_union,
    !elem_of_list_to_set, elem_of_fixture_files, list_elem_of_fmap.
  setoid_rewrite elem_of_range. split.
  - intros [[name ->] [Hgen|Hold]].
    + destruct Hgen as [H|[(i & Hi & H)|[(i & Hi & H)|[[_ [H|[H|(j & Hj & H)]]]|[_ H]]]]];
        try (by path_eq H).
      exists i. by rewrite H.
    + assert (tables_dir temp_dir // name ∈ entries f) as Hin by (unfold entries; set_solver).
      by_absent Habs Hin.
  - intros (i & -> & Hi). split; [by eexists|]. left. right. left. eauto.
Qed.

Lemma files_in_relationships temp_dir n v kb enh f :
  absent f (project_dir temp_dir) →
  files_in (fixture_tree temp_dir n v kb enh f) (relationships_dir temp_dir)
  = list_to_set (rel_file temp_dir <$> range (n - 1)).
Proof.
  intros Habs. apply set_eq. intros p. unfold files_in.
  rewrite elem_of_filter, is_child_spec, dom_fixture_tree, elem_of_union,
    !elem_of_list_to_set, elem_of_fixture_files, list_elem_of_fmap.
  setoid_rewrite elem_of_range. split.
  - intros [[name ->] [Hgen|Hold]].
    + destruct Hgen as [H|[(i & Hi & H)|[(i & Hi & H)|[[_ [H|[H|(j & Hj & H)]]]|[_ H]]]]];
        try (by path_eq H).
      exists i. by rewrite H.
    + assert (relationships_dir temp_dir // name ∈ entries f) as Hin
        by (unfold entries; set_solver).
      by_absent Habs Hin.
  - intros (i & -> & Hi). split; [by eexists|]. left. right. right. left. eauto.
Qed.

Lemma pages_dir_prefix_project temp_dir (p : path) :
  pages_dir temp_dir `prefix_of` p → project_dir temp_dir `prefix_of` p.
Proof.
  intros [k ->]. exists (["PerfTest.Report"; "definition"; "pages"] ++ k).
  unfold_paths. reflexivity.
Qed.

Lemma visual_files temp_dir n v kb f :
  absent f (project_dir temp_dir) →
  files_named (fixture_tree temp_dir n v kb true f) (pages_dir temp_dir) "visual.json"
  = list_to_set (visual_file temp_dir <$> range v).
Proof.
  intros Habs. apply set_eq. intros p. unfold files_named.
  rewrite elem_of_filter, dom_fixture_tree, elem_of_union,
    !elem_of_list_to_set, elem_of_fixture_files, list_elem_of_fmap.
  setoid_rewrite elem_of_range. split.
  - intros [[Hpre Hlast] [Hgen|Hold]].
    + destruct Hgen as [H|[(i & Hi & H)|[(i & Hi & H)|[[_ [H|[H|(j & Hj & H)]]]|[? _]]]]];
        try done;
        try (rewrite H in Hlast; unfold pbip_file, table_file, rel_file in Hlast;
             rewrite last_pjoin in Hlast; unfold table_name, project_name in Hlast;
             rewrite ?append_cons, ?append_nil_l in Hlast; discriminate).
      eauto.
    + assert (p ∈ entries f) as Hin by (unfold entries; set_solver).
      exfalso. eapply Habs; [apply Hin|]. by apply pages_dir_prefix_project.
  - intros (j & -> & Hj). split.
    + split; [|apply last_pjoin].
      unfold visual_file, visual_dir, pjoin. rewrite <- !app_assoc. by eexists.
    + left. do 3 right. left. split; [done|]. do 2 right. eauto.
Qed.

Lemma page_dirs temp_dir n v kb f :
  absent f (project_dir temp_dir) →
  subdirs_in (fixture_tree temp_dir n v kb true f) (pages_dir temp_dir)
  = list_to_set ((fun j => pages_dir temp_dir // page_id j) <$> range v).
Proof.
  intros Habs. apply set_eq. intros q. unfold subdirs_in.
  rewrite elem_of_filter, is_child_spec, elem_of_dirs_fixture_tree,
    elem_of_list_to_set, list_elem_of_fmap.
  setoid_rewrite elem_of_fixture_dirs. setoid_rewrite elem_of_range. split.
  - intros [[name ->] [(d & Hd & Hpre)|Hold]].
    + destruct Hd as [->|[->|[->|[_ [->|(j & Hj & ->)]]]]]; try (by path_prefix Hpre).
      exists j. split; [|done]. path_prefix Hpre. done.
    + assert (pages_dir temp_dir // name ∈ entries f) as Hin by (unfold entries; set_solver).
      by_absent Habs Hin.
  - intros (j & -> & Hj). split; [by eexists|]. left.
    exists (visual_dir temp_dir j). split; [naive_solver|].
    unfold visual_dir, pjoin. by do 2 apply prefix_app_r.
Qed.

(** ** Counting *)

Lemma size_image_range `{Countable A} (g : Z -> A) n :
  (∀ i j, 0 <= i < n → 0 <= j < n → g i = g j → i = j) →
  size (list_to_set (C := gset A) (g <$> range n)) = Z.to_nat n.
Proof.
  intros Hinj. rewrite size_list_to_set.
  - unfold range. by rewrite length_fmap, length_seqZ.
  - apply NoDup_fmap_2_strong; [|apply NoDup_seqZ].
    intros i j Hi%elem_of_range Hj%elem_of_range. by apply Hinj.
Qed.

Lemma ceil_div_5_bounds v : 5 * (ceil_div v 5 - 1) < v <= 5 * ceil_div v 5.
Proof. unfold ceil_div. Z.div_mod_to_equations. lia. Qed.

Lemma page_id_of_page j : page_id j = page_id (5 * (j / 5)).
Proof. unfold page_id. do 3 f_equal. Z.div_mod_to_equations. lia. Qed.

Lemma page_dir_inj temp_dir i j :
  0 <= i → 0 <= j →
  pages_dir temp_dir // page_id (5 * i) = pages_dir temp_dir // page_id (5 * j) → i = j.
Proof.
  intros Hi Hj H. apply pjoin_inj in H as [_ H]. unfold page_id in H.
  apply append_inv_head, format_d_inj in H;
    revert H; Z.div_mod_to_equations; lia.
Qed.

(** The pages are those of the visuals [0], [5], [10], ... *)
Lemma pages_by_first_visual temp_dir v :
  list_to_set (C := gset path) ((fun j => pages_dir temp_dir // page_id j) <$> range v)
  = list_to_set ((fun k => pages_dir temp_dir // page_id (5 * k)) <$> range (ceil_div v 5)).
Proof.
  pose proof (ceil_div_5_bounds v) as Hc.
  apply set_eq. intros q. rewrite !elem_of_list_to_set, !list_elem_of_fmap.
  setoid_rewrite elem_of_range. split.
  - intros (j & -> & Hj). exists (j / 5). split; [by rewrite page_id_of_page|].
    revert Hc. Z.div_mod_to_equations. lia.
  - intros (k & -> & Hk). exists (5 * k). split; [done|]. lia.
Qed.

Lemma size_pages temp_dir v :
  0 <= v →
  size (list_to_set (C := gset path) ((fun j => pages_dir temp_dir // page_id j) <$> range v))
  = Z.to_nat (ceil_div v 5).
Proof.
  intros Hv. rewrite pages_by_first_visual. apply size_image_range.
  intros i j Hi Hj. apply page_dir_inj; lia.
Qed.

Lemma fs_advance effect k w : fs (advance effect k w) = effect (fs w).
Proof. done. Qed.

Lemma absent_empty_world d : absent (fs empty_world) d.
Proof. intros p Hp. unfold entries in Hp. cbn in Hp. set_solver. Qed.

Lemma quiet_no_io_faults : @no_io_faults quiet.
Proof. intros k. reflexivity. Qed.

(** ** Names of tables *)

Lemma safe_name_plain i : i mod 3 ≠ 0 → safe_name i = table_name i.
Proof. intros. unfold safe_name. by destruct (Z.eqb_spec (i mod 3) 0). Qed.

Lemma safe_name_spaced i :
  i mod 3 = 0 → safe_name i = "Table With Spaces_" +:+ format_d 3 (i + 1).
Proof. intros. unfold safe_name. by destruct (Z.eqb_spec (i mod 3) 0). Qed.

Lemma has_space_table_file_name i :
  0 <= i → has_space ("Table_" +:+ format_d 3 (i + 1) +:+ ".tmdl") = false.
Proof.
  intros. unfold has_space. by rewrite !no_space_app, no_space_format_d by lia.
Qed.

Lemma has_space_safe_name i : 0 <= i → has_space (safe_name i) = true ↔ i mod 3 = 0.
Proof.
  intros Hi. destruct (decide (i mod 3 = 0)) as [H3|H3].
  - by rewrite safe_name_spaced.
  - rewrite safe_name_plain by done. unfold has_space, table_name.
    rewrite no_space_app, no_space_format_d by lia. done.
Qed.

Lemma safe_name_differs i :
  safe_name i +:+ ".tmdl" ≠ "Table_" +:+ format_d 3 (i + 1) +:+ ".tmdl" ↔ i mod 3 = 0.
Proof.
  destruct (decide (i mod 3 = 0)) as [H3|H3].
  - rewrite safe_name_spaced by done. split; [done|]. intros _ Heq.
    rewrite !append_cons in Heq. discriminate.
  - rewrite safe_name_plain by done. unfold table_name. rewrite append_assoc.
    split; [done|]. intros ?. done.
Qed.

(** ** Substrings *)

Lemma prefix_spec (a s : string) :
  String.prefix a s = true ↔ ∃ post, s = a +:+ post.
Proof.
  revert s. induction a as [|c a IH]; intros s.
  - split; [by exists s|by destruct s].
  - destruct s as [|c' s]; cbn; [split; [done|by intros [? ?]]|].
    destruct (ascii_dec c c') as [->|Hne].
    + rewrite IH. split; intros [post Hpost]; exists post.
      * by rewrite append_cons, Hpost.
      * rewrite append_cons in Hpost. by injection Hpost.
    + split; [done|]. intros [post Hpost]. rewrite append_cons in Hpost. congruence.
Qed.

Lemma contains_spec (sub s : string) : contains sub s = true ↔ is_substring sub s.
Proof.
  unfold is_substring. induction s as [|c s IH]; cbn [contains].
  - destruct (String.prefix sub "") eqn:Hp.
    + apply prefix_spec in Hp as [post Hp]. split; [|done]. intros _. by exists "", post.
    + split; [done|]. intros ([|? ?] & post & H); [|by rewrite append_cons in H].
      rewrite append_nil_l in H. assert (String.prefix sub "" = true) as Hp'
        by (apply prefix_spec; eauto). congruence.
  - destruct (String.prefix sub (String c s)) eqn:Hp.
    + apply prefix_spec in Hp as [post Hp]. split; [|done]. intros _. by exists "", post.
    + rewrite IH. split.
      * intros (pre & post & ->). by exists (String c pre), post.
      * intros ([|c' pre] & post & H).
        -- rewrite append_nil_l in H. assert (String.prefix sub (String c s) = true) as Hp'
             by (apply prefix_spec; eauto). congruence.
        -- rewrite append_cons in H. injection H as -> ->. eauto.
Qed.

(** ** Grouping by tier *)

Lemma elem_of_tier (tier : string) (bs : list sample) b :
  b ∈ List.filter (fun b => contains tier (operation b)) bs
  ↔ b ∈ bs ∧ is_substring tier (operation b).
Proof. by rewrite !list_elem_of_In, filter_In, contains_spec. Qed.

Lemma tier_drops (tier : string) (bs1 bs2 : list sample) b :
  ¬ is_substring tier (operation b) →
  List.filter (fun b => contains tier (operation b)) (bs1 ++ b :: bs2)
  = List.filter (fun b => contains tier (operation b)) (bs1 ++ bs2).
Proof.
  intros Hno. rewrite !List.filter_app. cbn [List.filter].
  destruct (contains tier (operation b)) eqn:Hc; [|done].
  by apply contains_spec in Hc.
Qed.

(** ** Floating point facts *)

Lemma positive_not_zero x : (0 <? x)%float = true → (x =? 0)%float = false.
Proof.
  rewrite FloatAxioms.ltb_spec, FloatAxioms.eqb_spec.
  destruct (Prim2SF x) as [s|s| |s m e]; vm_compute; try congruence.
  all: destruct s; congruence.
Qed.

Lemma zero_not_positive x : (x =? 0)%float = true → (0 <? x)%float = false.
Proof.
  rewrite FloatAxioms.ltb_spec, FloatAxioms.eqb_spec.
  destruct (Prim2SF x) as [s|s| |s m e]; vm_compute; try congruence.
  all: destruct s; congruence.
Qed.

(** ** Averages and the scaling factor *)

Lemma average_nil : average [] = Raise (ZeroDivisionError "division by zero").
Proof. reflexivity. Qed.

Lemma py_sum_float xs a :
  fold_left (fun acc x => py_add acc (PyFloat x)) xs (PyFloat a)
  = PyFloat (fold_left PrimFloat.add xs a).
Proof. revert a. induction xs as [|x xs IH]; intros a; [done|]. cbn. by rewrite IH. Qed.

Lemma average_nonempty ops : ops ≠ [] → average ops = Ok (PyFloat (float_mean ops)).
Proof.
  destruct ops as [|b ops]; [done|]. intros _.
  unfold average, float_mean, py_sum. cbn [map fold_left].
  change (py_add (PyInt 0) (PyFloat (time_ms b)))
    with (PyFloat (float_of_int 0 + time_ms b)).
  rewrite py_sum_float. unfold py_truediv.
  replace (py_is_zero (PyInt (Z.of_nat (length (b :: ops))))) with false; [done|].
  cbn [py_is_zero length]. symmetry. apply Z.eqb_neq. lia.
Qed.

Lemma average_defined ops : (∃ a, average ops = Ok a) ↔ ops ≠ [].
Proof.
  split.
  - intros [a Ha] ->. by rewrite average_nil in Ha.
  - intros Hne. rewrite average_nonempty by done. eauto.
Qed.

Lemma scaling_factor_float small_avg large_avg :
  scaling_factor (PyFloat small_avg) (PyFloat large_avg)
  = Ok (if (0 <? small_avg)%float then PyFloat (large_avg / small_avg) else PyInt 0).
Proof.
  unfold scaling_factor, py_gt, py_lt.
  change (to_float (PyInt 0)) with 0%float. cbn [to_float].
  destruct (0 <? small_avg)%float eqn:Hpos; [|done].
  unfold py_truediv. cbn [py_is_zero to_float]. by rewrite positive_not_zero.
Qed.

Lemma print_ok l w : print l w = (Ok tt, say l w).
Proof. reflexivity. Qed.

Lemma scaling_analysis_ok small large w :
  small ≠ [] → large ≠ [] →
  ∃ sf,
    scaling_factor (PyFloat (float_mean small)) (PyFloat (float_mean large)) = Ok sf
    ∧ scaling_analysis small large w
      = (Ok tt, World (fs w) (io_calls w) (clock_reads w)
                      (stdout w ++ scaling_trace sf) (rmtree_log w)).
Proof.
  intros Hs Hl. eexists. split; [apply scaling_factor_float|].
  unfold scaling_analysis.
  destruct small as [|b1 small]; [done|]. destruct large as [|b2 large]; [done|].
  rewrite !average_nonempty, !bind_lift_ok, scaling_factor_float, bind_lift_ok by done.
  do 3 run_step (print_ok _ _). rewrite print_ok. unfold say. cbn.
  by rewrite <- !app_assoc.
Qed.

(** ** The summary analysis *)

Lemma summary_analysis_ok `{Environment} (rs : results_t) w :
  no_io_faults →
  small_ops (benchmarks rs) ≠ [] →
  medium_ops (benchmarks rs) ≠ [] →
  large_ops (benchmarks rs) ≠ [] →
  let rs' := Results (benchmarks rs) (summary_of (benchmarks rs)) in
  summary_analysis rs w
  = (Ok rs',
     World (put_file artifact_path (artifact_of rs') (fs w)) (S (io_calls w))
           (clock_reads w)
           (stdout w ++ summary_trace (benchmarks rs) (scaling_factor_of (benchmarks rs)))
           (rmtree_log w)).
Proof.
  intros Hio Hs Hm Hl rs'. unfold summary_analysis. cbn zeta.
  do 3 run_step (print_ok _ _).
  rewrite !average_nonempty by done.
  rewrite bind_lift_ok. run_step (print_ok _ _).
  rewrite bind_lift_ok. run_step (print_ok _ _).
  rewrite bind_lift_ok. run_step (print_ok _ _).
  destruct (scaling_analysis_ok (small_ops (benchmarks rs)) (large_ops (benchmarks rs))
              (say [Lit "Large Project Average: ";
                    Fixed 2 (PyFloat (float_mean (large_ops (benchmarks rs)))); Lit "ms"]
                 (say [Lit "Medium Project Average: ";
                       Fixed 2 (PyFloat (float_mean (medium_ops (benchmarks rs)))); Lit "ms"]
                    (say [Lit (nl +:+ "Small Project Average: ");
                          Fixed 2 (PyFloat (float_mean (small_ops (benchmarks rs)))); Lit "ms"]
                       (say [Lit (rule "=")]
                          (say [Lit "PERFORMANCE SUMMARY"]
                             (say [Lit (nl +:+ rule "=")] w))))))
              Hs Hl) as (sf & Hsf & Hrun).
  rewrite scaling_factor_float in Hsf. injection Hsf as <-.
  run_step Hrun. rewrite !bind_lift_ok.
  run_step (json_dump_ok Hio _ _ _ _). run_step (print_ok _ _).
  unfold ret, say, advance, summary_trace, scaling_factor_of, artifact_of, artifact_path.
  cbn [fs io_calls clock_reads stdout rmtree_log]. f_equal. f_equal.
  rewrite <- !app_assoc. reflexivity.
Qed.

Lemma summary_analysis_empty_tier `{Environment} (rs : results_t) w :
  small_ops (benchmarks rs) = []
  ∨ medium_ops (benchmarks rs) = []
  ∨ large_ops (benchmarks rs) = [] →
  ∃ w', summary_analysis rs w = (Raise (ZeroDivisionError "division by zero"), w')
        ∧ fs w' = fs w ∧ io_calls w' = io_calls w.
Proof.
  intros Hempty. unfold summary_analysis. cbn zeta.
  do 3 run_step (print_ok _ _).
  destruct (small_ops (benchmarks rs)) as [|b1 l1] eqn:Hs.
  { rewrite average_nil, bind_lift_raise. eauto. }
  rewrite (average_nonempty (b1 :: l1)) by done.
  rewrite bind_lift_ok. run_step (print_ok _ _).
  destruct (medium_ops (benchmarks rs)) as [|b2 l2] eqn:Hm.
  { rewrite average_nil, bind_lift_raise. eauto. }
  rewrite (average_nonempty (b2 :: l2)) by done.
  rewrite bind_lift_ok. run_step (print_ok _ _).
  destruct (large_ops (benchmarks rs)) as [|b3 l3] eqn:Hl.
  { rewrite average_nil, bind_lift_raise. eauto. }
  naive_solver.
Qed.

(** ** The log of [rmtree] calls *)

Lemma keeps_log_ret {A} (a : A) : keeps_log (ret a).
Proof. by intros w. Qed.

Lemma keeps_log_lift {A} (r : result A) : keeps_log (lift r).
Proof. by intros w. Qed.

Lemma keeps_log_bind {A B} (m : M A) (k : A -> M B) :
  keeps_log m → (∀ a, keeps_log (k a)) → keeps_log (bind m k).
Proof.
  intros Hm Hk w. unfold bind. specialize (Hm w).
  destruct (m w) as [[a|e] w1]; cbn in *; [|done]. by rewrite Hk.
Qed.

Lemma keeps_log_print l : keeps_log (print l).
Proof. by intros w. Qed.

Lemma keeps_log_for_each {A} (l : list A) body :
  (∀ x, keeps_log (body x)) → keeps_log (for_each l body).
Proof.
  intros Hbody. induction l as [|x l IH]; cbn [for_each].
  - apply keeps_log_ret.
  - apply keeps_log_bind; [apply Hbody|done].
Qed.

(** Descend into a sequence of computations, syntactically. *)
Ltac keeps_log_seq :=
  repeat match goal with
         | |- keeps_log (bind _ _) => apply keeps_log_bind; [|intros ?]
         | |- keeps_log (let _ := _ in _) => lazy zeta
         | |- keeps_log (for_each _ _) => apply keeps_log_for_each; intros ?
         | |- keeps_log (if ?b then _ else _) => destruct b
         end.

Section Log.
Context {E : Environment}.

Lemma keeps_log_io effect : keeps_log (io effect).
Proof. intros w. unfold io. by destruct (io_fault (io_calls w)). Qed.

Lemma keeps_log_perf_counter : keeps_log perf_counter.
Proof. by intros w. Qed.

Lemma keeps_log_call method : keeps_log (call method).
Proof. intros w. unfold call. by destruct (method (fs w)). Qed.

Lemma keeps_log_benchmark_operation {R} name (operation : M R) :
  keeps_log operation → keeps_log (benchmark_operation name operation).
Proof.
  intros Hop. unfold benchmark_operation. keeps_log_seq;
    auto using keeps_log_perf_counter, keeps_log_print, keeps_log_ret.
Qed.

Lemma keeps_log_create temp_dir n v kb enh :
  keeps_log (create_performance_test_project temp_dir n v kb enh).
Proof.
  unfold create_performance_test_project, makedirs, write_text, json_dump.
  keeps_log_seq; auto using keeps_log_io, keeps_log_ret, keeps_log_lift.
Qed.

Lemma keeps_log_scaling_analysis small large : keeps_log (scaling_analysis small large).
Proof.
  unfold scaling_analysis. destruct small, large; keeps_log_seq;
    auto using keeps_log_print, keeps_log_ret, keeps_log_lift.
Qed.

Lemma keeps_log_summary_analysis rs : keeps_log (summary_analysis rs).
Proof.
  unfold summary_analysis, json_dump. keeps_log_seq;
    auto using keeps_log_print, keeps_log_ret, keeps_log_lift, keeps_log_io,
      keeps_log_scaling_analysis.
Qed.

Lemma keeps_log_benchmark_suite temp_dir rs : keeps_log (benchmark_suite temp_dir rs).
Proof.
  unfold benchmark_suite. keeps_log_seq;
    auto using keeps_log_print, keeps_log_create, keeps_log_summary_analysis,
      keeps_log_benchmark_operation, keeps_log_call.
Qed.

End Log.

(** ** A run without failures *)

Lemma clock_reads_advance effect k w : clock_reads (advance effect k w) = clock_reads w.
Proof. done. Qed.

Lemma clock_reads_say l w : clock_reads (say l w) = clock_reads w.
Proof. done. Qed.

Section Smooth.
Context {E : Environment}.
Hypothesis Hio : no_io_faults.
Hypothesis Hconn : connector_never_raises.

Lemma benchmark_operation_call name method w :
  never_raises method →
  ∃ c w',
    benchmark_operation name (call method) w = (Ok (elapsed_at (clock_reads w), c), w')
    ∧ clock_reads w' = (2 + clock_reads w)%nat.
Proof.
  intros Hm. unfold benchmark_operation, bind, perf_counter, call, print, ret.
  cbn [fs clock_reads set_fs io_calls stdout rmtree_log].
  destruct (Hm (fs w)) as [c Hc].
  destruct (method (fs w)) as [r f]. cbn in Hc. subst r.
  cbn [fs clock_reads set_fs io_calls stdout rmtree_log]. eexists _, _. split; reflexivity.
Qed.

Lemma run_samples_groups c :
  small_ops (run_samples c) ≠ []
  ∧ medium_ops (run_samples c) ≠ []
  ∧ large_ops (run_samples c) ≠ [].
Proof. repeat split; discriminate. Qed.

Lemma load_never_raises p c : never_raises (load_project p c).
Proof. by destruct (Hconn c) as (H & _). Qed.

Lemma validate_never_raises c : never_raises (validate_tmdl_syntax c).
Proof. by destruct (Hconn c) as (_ & H & _). Qed.

Lemma fix_never_raises c : never_raises (fix_all_dax_quoting c).
Proof. by destruct (Hconn c) as (_ & _ & H & _). Qed.

Lemma rename_never_raises old new c : never_raises (rename_table_in_files old new c).
Proof. by destruct (Hconn c) as (_ & _ & _ & H). Qed.

(** The next statement is a timed connector call: run it. *)
Ltac bench :=
  match goal with
  | |- context [bind (benchmark_operation ?name (call ?method)) _ ?w0] =>
      let c := fresh "c" in
      let w' := fresh "w" in
      let Hrun := fresh "Hrun" in
      let Hclock := fresh "Hclock" in
      destruct (benchmark_operation_call name method w0) as (c & w' & Hrun & Hclock);
      [auto using load_never_raises, validate_never_raises, fix_never_raises,
         rename_never_raises|];
      run_step Hrun; clear Hrun; cbn [fst snd];
      rewrite ?clock_reads_advance, ?clock_reads_say in Hclock;
      rewrite ?clock_reads_advance, ?clock_reads_say
  end.

(** The next statement generates a fixture: run it. *)
Ltac generate :=
  match goal with
  | |- context [bind (create_performance_test_project ?t ?n ?v ?kb true) _ ?w0] =>
      let k := fresh "k" in
      let Hgen := fresh "Hgen" in
      destruct (create_performance_test_project_ok Hio t n v kb true w0) as [k Hgen];
      [lia|]; run_step Hgen; clear Hgen; lazy zeta
  end.

Lemma benchmark_suite_ok temp_dir w :
  let samples := run_samples (clock_reads w) in
  let rs := Results samples (summary_of samples) in
  ∃ w',
    benchmark_suite temp_dir (Results [] []) w = (Ok rs, w')
    ∧ files (fs w') !! artifact_path = Some (artifact_of rs)
    ∧ ∃ before,
        stdout w' = before ++ summary_trace samples (scaling_factor_of samples).
Proof.
  intros samples rs. unfold benchmark_suite.
  do 2 run_step (print_ok _ _). generate. do 4 bench.
  do 2 run_step (print_ok _ _). generate. do 3 bench.
  do 2 run_step (print_ok _ _). generate. do 3 bench.
  unfold append. cbn [benchmarks summary app].
  rewrite Hclock7, Hclock6, Hclock5, Hclock4, Hclock3, Hclock2, Hclock1,
    Hclock0, Hclock.
  destruct (run_samples_groups (clock_reads w)) as (Hs & Hm & Hl).
  pose proof (summary_analysis_ok (Results samples []) w9 Hio Hs Hm Hl) as Hsum.
  cbn zeta in Hsum. eexists. split; [exact Hsum|].
  cbn [fs stdout put_file files]. split.
  - unfold artifact_path. by rewrite lookup_insert_eq.
  - eexists. reflexivity.
Qed.

Lemma mkdtemp_ok prefix w :
  mkdtemp prefix w
  = (Ok (gettempdir // (prefix +:+ mkdtemp_suffix (io_calls w))),
     advance (add_dirs (gettempdir // (prefix +:+ mkdtemp_suffix (io_calls w)))) 1 w).
Proof. unfold mkdtemp. by run_step (io_ok Hio _ _). Qed.

End Smooth.

(** ** The whole run *)

Section Run.
Context {E : Environment}.

Lemma keeps_log_mkdtemp prefix : keeps_log (mkdtemp prefix).
Proof.
  intros w. unfold mkdtemp.
  apply (keeps_log_bind (io _) (fun _ => ret _)); auto using keeps_log_io, keeps_log_ret.
Qed.

(** [run_benchmarks], step by step: the banner, the scratch root, the
    [try] block, the cleanup. *)
Lemma run_benchmarks_unfold w :
  run_benchmarks w
  = match mkdtemp "pbip_perf_test_" (banner w) with
    | (Raise e, w1) => (Raise e, w1)
    | (Ok temp_dir, w1) =>
        let (r, w2) := benchmark_suite temp_dir (Results [] []) w1 in
        (outcome_of r, cleaned temp_dir w2)
    end.
Proof.
  unfold run_benchmarks. do 3 run_step (print_ok _ _). lazy zeta.
  fold (banner w). unfold bind at 1.
  destruct (mkdtemp "pbip_perf_test_" (banner w)) as [[temp_dir|e] w1]; [|done].
  unfold try_finally, bind, rmtree_ignore_errors, ret.
  destruct (benchmark_suite temp_dir (Results [] []) w1) as [[rs|e] w2]; done.
Qed.

Lemma absent_remove_tree root f :
  (∀ p, undeletable p = false) → absent (remove_tree root f) root.
Proof.
  intros Hdel p Hp Hpre.
  assert (survives f root p) as [Hs|(u & _ & Hu & _)].
  { unfold entries, remove_tree in Hp. cbn [dirs files] in Hp.
    apply elem_of_union in Hp as [Hp|Hp].
    - by apply elem_of_filter in Hp as [Hp _].
    - apply elem_of_dom in Hp as [c Hc].
      by apply map_lookup_filter_Some in Hc as [_ Hc]. }
  - done.
  - by rewrite Hdel in Hu.
Qed.

Lemma lookup_remove_tree root f p :
  ¬ root `prefix_of` p → files (remove_tree root f) !! p = files f !! p.
Proof.
  intros Hpre. unfold remove_tree. cbn [files].
  destruct (files f !! p) as [c|] eqn:Hp.
  - apply map_lookup_filter_Some. split; [done|]. by left.
  - apply map_lookup_filter_None. by left.
Qed.

Lemma scratch_not_artifact (d : path) suffix :
  ¬ d // ("pbip_perf_test_" +:+ suffix) `prefix_of` artifact_path.
Proof.
  intros [k Hk]. unfold artifact_path, pjoin in Hk. rewrite <- app_assoc in Hk.
  destruct d as [|x [|y d]]; cbn in Hk.
  - discriminate.
  - discriminate.
  - discriminate.
Qed.

(** Without failures the run completes, and its artifact and its trace
    are those of the ten samples. *)
Lemma run_benchmarks_ok w :
  no_io_faults → connector_never_raises →
  let samples := run_samples (clock_reads w) in
  let rs := Results samples (summary_of samples) in
  ∃ w',
    run_benchmarks w = (Ok tt, w')
    ∧ files (fs w') !! artifact_path = Some (artifact_of rs)
    ∧ ∃ before,
        stdout w' = before ++ summary_trace samples (scaling_factor_of samples).
Proof.
  intros Hio Hconn samples rs. rewrite run_benchmarks_unfold, mkdtemp_ok by done.
  set (temp_dir := gettempdir // _). set (w1 := advance _ 1 _).
  destruct (benchmark_suite_ok Hio Hconn temp_dir w1) as (w2 & Hrun & Hfile & Hout).
  rewrite Hrun. eexists. split; [reflexivity|]. cbn [fs cleaned stdout]. split.
  - rewrite lookup_remove_tree; [exact Hfile|]. apply scratch_not_artifact.
  - exact Hout.
Qed.

End Run.

Lemma quiet_connector_never_raises : @connector_never_raises quiet.
Proof. intros c. repeat split; intros; intros f; by exists c. Qed.

(** ** The generated tree, apart from what was there before *)

Lemma insert_all_union {A} (p : A -> path) (c : A -> content) l m :
  insert_all p c m l = insert_all p c ∅ l ∪ m.
Proof.
  revert m. induction l as [|x l IH]; intros m; cbn.
  - by rewrite (left_id_L ∅ (∪)).
  - unfold insert_all in *. cbn. rewrite (IH (<[p x:=c x]> m)), (IH (<[p x:=c x]> ∅)).
    rewrite (insert_union_singleton_l m), (insert_union_singleton_l ∅).
    by rewrite (right_id_L ∅ (∪)), (assoc_L (∪)).
Qed.

Lemma files_fixture_tree_union temp_dir n v kb enh f :
  files (fixture_tree temp_dir n v kb enh f)
  = files (fixture_tree temp_dir n v kb enh empty_fs) ∪ files f.
Proof.
  rewrite !files_fixture_tree. cbn zeta. cbn [files empty_fs].
  destruct enh.
  - rewrite (insert_all_union (visual_file temp_dir)).
    rewrite (insert_all_union (visual_file temp_dir) _ _ (<[_:=_]> (<[_:=_]> (insert_all _ _ (insert_all _ _ (<[_:=_]> ∅) _) _)))).
    rewrite <- (assoc_L (∪)). f_equal.
    rewrite !insert_union_singleton_l, <- !(assoc_L (∪)). do 2 f_equal.
    rewrite (insert_all_union (rel_file temp_dir)).
    rewrite (insert_all_union (rel_file temp_dir) _ _ (insert_all _ _ _ _)).
    rewrite <- (assoc_L (∪)). f_equal.
    rewrite (insert_all_union (table_file temp_dir)).
    rewrite (insert_all_union (table_file temp_dir) _ _ ({[_:=_]} ∪ ∅)).
    rewrite <- !(assoc_L (∪)). by rewrite (left_id_L ∅ (∪)).
  - rewrite !insert_union_singleton_l, <- !(assoc_L (∪)). f_equal.
    rewrite (insert_all_union (rel_file temp_dir)).
    rewrite (insert_all_union (rel_file temp_dir) _ _ (insert_all _ _ _ _)).
    rewrite <- (assoc_L (∪)). f_equal.
    rewrite (insert_all_union (table_file temp_dir)).
    rewrite (insert_all_union (table_file temp_dir) _ _ ({[_:=_]} ∪ ∅)).
    rewrite <- !(assoc_L (∪)). by rewrite (left_id_L ∅ (∪)).
Qed.

Lemma filesystem_eq (f g : filesystem) : dirs f = dirs g → files f = files g → f = g.
Proof. destruct f, g. cbn. by intros -> ->. Qed.

Lemma fixture_tree_idemp temp_dir n v kb enh f :
  fixture_tree temp_dir n v kb enh (fixture_tree temp_dir n v kb enh f)
  = fixture_tree temp_dir n v kb enh f.
Proof.
  apply filesystem_eq.
  - rewrite !dirs_fixture_tree. set_solver.
  - rewrite files_fixture_tree_union, (files_fixture_tree_union _ _ _ _ _ f).
    by rewrite (assoc_L (∪)), (idemp_L (∪)).
Qed.

(** ** What a computation leaves alone *)

Lemma only_writes_ret {A} S (a : A) : only_writes S (ret a).
Proof. by intros w. Qed.

Lemma only_writes_lift {A} S (r : result A) : only_writes S (lift r).
Proof. by intros w. Qed.

Lemma only_writes_bind {A B} S (m : M A) (k : A -> M B) :
  only_writes S m → (∀ a, only_writes S (k a)) → only_writes S (bind m k).
Proof.
  intros Hm Hk w. unfold bind. destruct (Hm w) as (Hd & Hf & Hq).
  destruct (m w) as [[a|e] w1]; cbn in *; [|done].
  destruct (Hk a w1) as (Hd' & Hf' & Hq'). split; [set_solver|]. split; [set_solver|].
  intros q HS. by rewrite Hq', Hq.
Qed.

Lemma only_writes_for_each {A} S (l : list A) body :
  (∀ x, x ∈ l → only_writes S (body x)) → only_writes S (for_each l body).
Proof.
  induction l as [|x l IH]; intros Hbody; cbn [for_each].
  - apply only_writes_ret.
  - apply only_writes_bind; [apply Hbody; left|intros _; apply IH].
    intros y Hy. apply Hbody. by right.
Qed.

Lemma silent_ret {A} (a : A) : silent (ret a).
Proof. by intros w. Qed.

Lemma silent_lift {A} (r : result A) : silent (lift r).
Proof. by intros w. Qed.

Lemma silent_bind {A B} (m : M A) (k : A -> M B) :
  silent m → (∀ a, silent (k a)) → silent (bind m k).
Proof.
  intros Hm Hk w. unfold bind. destruct (Hm w) as (Hc & Ho).
  destruct (m w) as [[a|e] w1]; cbn in *; [|done].
  destruct (Hk a w1) as (Hc' & Ho'). split; congruence.
Qed.

Lemma silent_for_each {A} (l : list A) body :
  (∀ x, silent (body x)) → silent (for_each l body).
Proof.
  intros Hbody. induction l as [|x l IH]; cbn [for_each].
  - apply silent_ret.
  - apply silent_bind; [apply Hbody|done].
Qed.

Section Frame.
Context {E : Environment}.

Lemma silent_io effect : silent (io effect).
Proof. intros w. unfold io. by destruct (io_fault (io_calls w)). Qed.

Lemma only_writes_makedirs S p : only_writes S (makedirs p).
Proof.
  intros w. unfold makedirs, io. destruct (io_fault (io_calls w)); cbn; [done|].
  split; [set_solver|done].
Qed.

Lemma only_writes_put S p c : S p → only_writes S (io (put_file p c)).
Proof.
  intros Hp w. unfold io. destruct (io_fault (io_calls w)); cbn; [done|].
  split; [done|]. split; [rewrite dom_insert_L; set_solver|].
  intros q Hq. apply lookup_insert_ne. by intros ->.
Qed.

(** Whatever happens, the generator removes nothing and leaves the files it
    does not name as they are. *)
Lemma only_writes_create temp_dir n v kb enh :
  only_writes (fun q => q ∈ fixture_files temp_dir n v enh)
    (create_performance_test_project temp_dir n v kb enh).
Proof.
  unfold create_performance_test_project, write_text, json_dump.
  repeat match goal with
         | |- only_writes _ (bind _ _) => apply only_writes_bind; [|intros ?]
         | |- only_writes _ (for_each _ _) =>
             apply only_writes_for_each; intros ? ?%elem_of_range
         | |- only_writes _ (if ?b then _ else _) => destruct b
         | |- only_writes _ (makedirs _) => apply only_writes_makedirs
         | |- only_writes _ (ret _) => apply only_writes_ret
         | |- only_writes _ (lift _) => apply only_writes_lift
         | |- only_writes _ (io (put_file _ _)) =>
             apply only_writes_put; apply elem_of_fixture_files
         end; try naive_solver.
Qed.

Lemma silent_create temp_dir n v kb enh :
  silent (create_performance_test_project temp_dir n v kb enh).
Proof.
  unfold create_performance_test_project, makedirs, write_text, json_dump.
  repeat match goal with
         | |- silent (bind _ _) => apply silent_bind; [|intros ?]
         | |- silent (for_each _ _) => apply silent_for_each; intros ?
         | |- silent (if ?b then _ else _) => destruct b
         end; auto using silent_io, silent_ret, silent_lift.
Qed.

End Frame.

(** ** Well-formed trees *)

Lemma in_a_directory_mono f g p :
  dirs f ⊆ dirs g → in_a_directory f p → in_a_directory g p.
Proof. intros Hsub (d & name & -> & Hd). exists d, name. split; [done|set_solver]. Qed.

Lemma tree_ok_well_formed ds f : tree_ok ds f → well_formed f.
Proof. by intros [? _]. Qed.

Lemma tree_ok_nil f : well_formed f → tree_ok [] f.
Proof. intros Hwf. split; [done|]. intros d Hd. by apply elem_of_nil in Hd. Qed.

Lemma tree_ok_sub ds ds' f : ds' ⊆ ds → tree_ok ds f → tree_ok ds' f.
Proof. intros Hsub [Hwf Hds]. split; [done|]. intros d Hd. apply Hds, Hsub, Hd. Qed.

Lemma tree_ok_add_dirs ds ds' d f :
  (∀ d', d' ∈ ds' → d' `prefix_of` d) →
  tree_ok ds f → tree_ok (ds' ++ ds) (add_dirs d f).
Proof.
  intros Hpre [Hwf Hds]. split.
  - intros p Hp. apply (in_a_directory_mono f); [cbn; set_solver|]. by apply Hwf.
  - intros d' [Hd'|Hd']%elem_of_app; cbn [dirs add_dirs].
    + apply elem_of_union_l, elem_of_list_to_set, elem_of_ancestors, Hpre, Hd'.
    + apply elem_of_union_r, Hds, Hd'.
Qed.

Lemma tree_ok_put_file ds d name c f :
  d ∈ ds → tree_ok ds f → tree_ok ds (put_file (d // name) c f).
Proof.
  intros Hd [Hwf Hds]. split; [|done].
  intros p Hp. cbn [files put_file] in Hp. rewrite dom_insert_L in Hp.
  apply elem_of_union in Hp as [->%elem_of_singleton|Hp].
  - exists d, name. split; [done|]. by apply Hds.
  - by apply Hwf.
Qed.

Lemma maintains_conseq {A} (P P' Q Q' : filesystem -> Prop) (m : M A) :
  (∀ f, P' f → P f) → (∀ f, Q f → Q' f) → maintains P Q m → maintains P' Q' m.
Proof.
  intros HP HQ Hm w Hw. specialize (Hm w (HP _ Hw)).
  destruct (m w) as [[a|e] w']; auto.
Qed.

Lemma maintains_bind {A B} (P Q R : filesystem -> Prop) (m : M A) (k : A -> M B) :
  maintains P Q m → (∀ a, maintains Q R (k a)) → maintains P R (bind m k).
Proof.
  intros Hm Hk w Hw. unfold bind. specialize (Hm w Hw).
  destruct (m w) as [[a|e] w']; [by apply Hk|done].
Qed.

Lemma maintains_ret {A} (P : filesystem -> Prop) (a : A) : maintains P P (ret a).
Proof. by intros w Hw. Qed.

Lemma maintains_lift {A} ds (r : result A) : maintains (tree_ok ds) (tree_ok ds) (lift r).
Proof. intros w Hw. unfold lift. destruct r; [done|by destruct Hw]. Qed.

Lemma maintains_for_each {A} ds (l : list A) body :
  (∀ x, maintains (tree_ok ds) (tree_ok ds) (body x)) →
  maintains (tree_ok ds) (tree_ok ds) (for_each l body).
Proof.
  intros Hbody. induction l as [|x l IH]; cbn [for_each].
  - apply maintains_ret.
  - eapply maintains_bind; [apply Hbody|done].
Qed.

Section Wellformed.
Context {E : Environment}.

Lemma maintains_makedirs ds ds' d :
  (∀ d', d' ∈ ds' → d' `prefix_of` d) →
  maintains (tree_ok ds) (tree_ok (ds' ++ ds)) (makedirs d).
Proof.
  intros Hpre w Hw. unfold makedirs, io.
  destruct (io_fault (io_calls w)); cbn; [by destruct Hw|].
  by apply tree_ok_add_dirs.
Qed.

Lemma maintains_put ds d name c :
  d ∈ ds → maintains (tree_ok ds) (tree_ok ds) (io (put_file (d // name) c)).
Proof.
  intros Hd w Hw. unfold io.
  destruct (io_fault (io_calls w)); cbn; [by destruct Hw|].
  by apply tree_ok_put_file.
Qed.

(** Every file is written after the directory that holds it was made:
    whenever and however the generator stops, the tree is well formed. *)
Lemma maintains_create temp_dir n v kb enh :
  maintains well_formed well_formed
    (create_performance_test_project temp_dir n v kb enh).
Proof.
  unfold create_performance_test_project, write_text, json_dump.
  set (ds := [report_dir temp_dir; relationships_dir temp_dir; tables_dir temp_dir;
              project_dir temp_dir]).
  eapply maintains_bind.
  { apply (maintains_conseq (tree_ok []) _
             (tree_ok ([tables_dir temp_dir; project_dir temp_dir] ++ [])));
      [apply tree_ok_nil|done|].
    apply (maintains_makedirs [] [tables_dir temp_dir; project_dir temp_dir]).
    intros d' [->|[->|[]%elem_of_nil]%elem_of_cons]%elem_of_cons; [done|].
    unfold tables_dir, semantic_dir, pjoin. by do 3 apply prefix_app_r. }
  intros _. eapply maintains_bind.
  { apply (maintains_makedirs _ [relationships_dir temp_dir]).
    by intros d' ->%list_elem_of_singleton. }
  intros _. eapply maintains_bind.
  { apply (maintains_makedirs _ [report_dir temp_dir]).
    by intros d' ->%list_elem_of_singleton. }
  intros _. cbn [app]. fold ds. eapply maintains_bind.
  { apply (maintains_put ds (project_dir temp_dir)). set_solver. }
  intros _. eapply maintains_bind.
  { apply maintains_for_each. intros i.
    apply (maintains_put ds (tables_dir temp_dir)). set_solver. }
  intros _. eapply maintains_bind.
  { apply maintains_for_each. intros i.
    apply (maintains_put ds (relationships_dir temp_dir)). set_solver. }
  intros _. eapply maintains_bind; [|intros _; apply maintains_ret].
  destruct enh.
  - set (ds' := [pages_dir temp_dir; definition_dir temp_dir] ++ ds).
    apply (maintains_conseq (tree_ok ds) _ (tree_ok ds'));
      [done|apply tree_ok_well_formed|].
    eapply maintains_bind.
    { apply (maintains_makedirs _ [pages_dir temp_dir; definition_dir temp_dir]).
      intros d' [->|[->|[]%elem_of_nil]%elem_of_cons]%elem_of_cons; [done|].
      unfold pages_dir, pjoin. by apply prefix_app_r. }
    intros _. fold ds'. eapply maintains_bind.
    { apply (maintains_put ds' (definition_dir temp_dir)). set_solver. }
    intros _. eapply maintains_bind.
    { apply (maintains_put ds' (pages_dir temp_dir)). set_solver. }
    intros _. apply maintains_for_each. intros j.
    apply (maintains_conseq (tree_ok ds') _ (tree_ok ([visual_dir temp_dir j] ++ ds')));
      [done|intros f; apply tree_ok_sub; set_solver|].
    eapply maintains_bind.
    { apply (maintains_makedirs _ [visual_dir temp_dir j]).
      by intros d' ->%list_elem_of_singleton. }
    intros _. eapply maintains_bind; [apply maintains_lift|].
    intros m. apply (maintains_put _ (visual_dir temp_dir j)). set_solver.
  - apply (maintains_conseq (tree_ok ds) _ (tree_ok ds));
      [done|apply tree_ok_well_formed|].
    apply (maintains_put ds (report_dir temp_dir)). set_solver.
Qed.

End Wellformed.

(** ** More about the generated tree *)

Lemma bind_raise {A B} (m : M A) (k : A -> M B) w e w' :
  m w = (Raise e, w') → bind m k w = (Raise e, w').
Proof. unfold bind. by intros ->. Qed.

Lemma dom_fixture_tree_empty temp_dir n v kb enh :
  dom (files (fixture_tree temp_dir n v kb enh empty_fs))
  = list_to_set (fixture_files temp_dir n v enh).
Proof. rewrite dom_fixture_tree. cbn. set_solver. Qed.

(** The generated tree keeps the files it does not name. *)
Lemma lookup_fixture_tree_other temp_dir n v kb enh f q :
  q ∉ fixture_files temp_dir n v enh →
  files (fixture_tree temp_dir n v kb enh f) !! q = files f !! q.
Proof.
  intros Hq. rewrite files_fixture_tree_union. apply lookup_union_r.
  apply not_elem_of_dom. rewrite dom_fixture_tree_empty. set_solver.
Qed.

Lemma files_in_tables_over temp_dir n v kb enh f :
  files_in (fixture_tree temp_dir n v kb enh f) (tables_dir temp_dir)
  = list_to_set (table_file temp_dir <$> range n) ∪ files_in f (tables_dir temp_dir).
Proof.
  apply set_eq. intros p. unfold files_in.
  rewrite elem_of_union, !elem_of_filter, is_child_spec, dom_fixture_tree, elem_of_union,
    !elem_of_list_to_set, elem_of_fixture_files, list_elem_of_fmap.
  setoid_rewrite elem_of_range. split.
  - intros [[name ->] [Hgen|Hold]]; [|right; split; [by eexists|done]].
    destruct Hgen as [H|[(i & Hi & H)|[(i & Hi & H)|[[_ [H|[H|(j & Hj & H)]]]|[_ H]]]]];
      try (by path_eq H).
    left. exists i. by rewrite H.
  - intros [(i & -> & Hi)|[Hc Hin]].
    + split; [by eexists|]. left. right. left. eauto.
    + split; [done|]. by right.
Qed.

Lemma table_files_max temp_dir n1 n2 :
  list_to_set (C := gset path) (table_file temp_dir <$> range n2)
  ∪ list_to_set (table_file temp_dir <$> range n1)
  = list_to_set (table_file temp_dir <$> range (Z.max n1 n2)).
Proof.
  apply set_eq. intros p.
  rewrite elem_of_union, !elem_of_list_to_set, !list_elem_of_fmap.
  setoid_rewrite elem_of_range. split.
  - intros [(i & -> & Hi)|(i & -> & Hi)]; exists i; (split; [done|lia]).
  - intros (i & -> & Hi). destruct (decide (i < n2)); [left|right]; exists i;
      (split; [done|lia]).
Qed.

Lemma table_file_not_generated temp_dir n v enh i :
  0 <= i → n <= i → table_file temp_dir i ∉ fixture_files temp_dir n v enh.
Proof.
  intros Hi Hn Hin. apply elem_of_fixture_files in Hin.
  destruct Hin as [H|[(j & Hj & H)|[(j & Hj & H)|[[_ [H|[H|(j & Hj & H)]]]|[_ H]]]]];
    try (by path_eq H).
  apply table_file_inj in H; lia.
Qed.

Lemma lookup_rel_file temp_dir n v kb enh f i :
  0 <= i < n - 1 →
  files (fixture_tree temp_dir n v kb enh f) !! rel_file temp_dir i = Some (rel_text i).
Proof.
  intros Hi. rewrite files_fixture_tree. cbn zeta.
  assert (∀ m, insert_all (rel_file temp_dir) rel_text m (range (n - 1))
               !! rel_file temp_dir i = Some (rel_text i)) as Hrel.
  { intros m. apply lookup_insert_all; [by apply elem_of_range|].
    intros j Hj%elem_of_range Heq. apply rel_file_inj in Heq; lia. }
  destruct enh.
  - rewrite lookup_insert_all_ne.
    + rewrite !lookup_insert_ne; [apply Hrel| |]; intros H; path_eq H.
    + intros (j & H & _)%list_elem_of_fmap. path_eq H.
  - rewrite lookup_insert_ne; [apply Hrel|]. intros H. path_eq H.
Qed.

Lemma rel_content_lines i :
  0 <= i →
  split_lines (rel_content i)
  = ["relationship rel_" +:+ format_d 0 (i + 1);
     "  cardinality: manyToOne";
     "  fromTable: " +:+ table_name i;
     "  fromColumn: Column_01";
     "  toTable: " +:+ table_name (i + 1);
     "  toColumn: Column_01";
     ""].
Proof.
  intros Hi. unfold rel_content.
  rewrite <- (append_assoc "relationship rel_"), split_lines_line
    by (by rewrite no_newline_app, no_newline_format_d by lia).
  rewrite split_lines_line by done.
  rewrite <- (append_assoc "  fromTable: Table_"), split_lines_line
    by (by rewrite no_newline_app, no_newline_format_d by lia).
  rewrite split_lines_line by done.
  rewrite <- (append_assoc "  toTable: Table_"), split_lines_line
    by (by rewrite no_newline_app, no_newline_format_d by lia).
  rewrite split_lines_last by done.
  unfold table_name. replace (i + 1 + 1) with (i + 2) by lia. reflexivity.
Qed.

(** ** The Legacy report *)

Lemma files_in_report_legacy temp_dir n v kb f :
  absent f (project_dir temp_dir) →
  files_in (fixture_tree temp_dir n v kb false f) (report_dir temp_dir)
  = {[report_dir temp_dir // "report.json"]}.
Proof.
  intros Habs. apply set_eq. intros p. unfold files_in.
  rewrite elem_of_filter, is_child_spec, dom_fixture_tree, elem_of_union,
    !elem_of_list_to_set, elem_of_fixture_files, elem_of_singleton. split.
  - intros [[name ->] [Hgen|Hold]].
    + destruct Hgen as [H|[(i & Hi & H)|[(i & Hi & H)|[[? _]|[_ H]]]]];
        try done; by path_eq H.
    + assert (report_dir temp_dir // name ∈ entries f) as Hin
        by (unfold entries; set_solver).
      by_absent Habs Hin.
  - intros ->. split; [by eexists|]. left. do 4 right. done.
Qed.

Lemma subdirs_in_report_legacy temp_dir n v kb f :
  absent f (project_dir temp_dir) →
  subdirs_in (fixture_tree temp_dir n v kb false f) (report_dir temp_dir) = ∅.
Proof.
  intros Habs. apply set_eq. intros q. unfold subdirs_in.
  rewrite elem_of_filter, is_child_spec, elem_of_dirs_fixture_tree.
  setoid_rewrite elem_of_fixture_dirs. split; [|set_solver].
  intros [[name ->] [(d & Hd & Hpre)|Hold]].
  - destruct Hd as [->|[->|[->|[? _]]]]; try done; by path_prefix Hpre.
  - assert (report_dir temp_dir // name ∈ entries f) as Hin by (unfold entries; set_solver).
    by_absent Habs Hin.
Qed.

(** ** What else a table file holds *)

Lemma padding_not_column kb : is_column_def (padding_per_table kb) = false.
Proof.
  unfold padding_per_table. rewrite str_mul_of_nat.
  destruct (Z.to_nat (kb * 100)) as [|k]; [done|]. by rewrite str_mul_succ.
Qed.

Lemma column_defs_table_content kb i :
  0 <= i →
  List.filter is_column_def (split_lines (table_content kb i))
  = ["    column Column_01"; "    column Column_02"; "    column Column_03";
     "    column Column_04"; "    column Column_05"].
Proof.
  intros Hi. rewrite table_content_lines, columns_lines, measure_lines by done.
  destruct (i mod 2 =? 0); cbn [app List.filter];
    change (is_column_def ("table " +:+ safe_name i)) with false;
    rewrite padding_not_column; reflexivity.
Qed.

Lemma column_lines_table_content kb i :
  0 <= i → take 10 (drop 1 (split_lines (table_content kb i))) = column_lines.
Proof. intros Hi. by rewrite table_content_lines, columns_lines. Qed.

Lemma length_str_mul s n :
  String.length (str_mul s n) = (Z.to_nat n * String.length s)%nat.
Proof.
  rewrite str_mul_of_nat. induction (Z.to_nat n) as [|k IH]; [done|].
  rewrite str_mul_succ, length_append, IH. lia.
Qed.

Lemma length_table_content kb i :
  String.length (table_content kb i)
  = (String.length (table_content 0 i) + 3 * Z.to_nat (kb * 100))%nat.
Proof.
  unfold table_content, padding_per_table. rewrite !length_append, !length_str_mul.
  cbn [String.length]. replace (Z.to_nat (0 * 100)) with 0%nat by lia. lia.
Qed.

(** ** Names that are declared *)

Lemma safe_name_is_plain i m :
  0 <= i → 0 <= m → safe_name i = table_name m ↔ i = m ∧ m mod 3 ≠ 0.
Proof.
  intros Hi Hm. destruct (decide (i mod 3 = 0)) as [H3|H3].
  - rewrite safe_name_spaced by done. unfold table_name. split.
    + intros Heq. rewrite !append_cons in Heq. discriminate.
    + intros [-> ?]. done.
  - rewrite safe_name_plain by done. unfold table_name. split.
    + intros Heq%append_inv_head%format_d_inj; [|lia..]. split; [lia|].
      replace m with i by lia. done.
    + by intros [-> _].
Qed.

(** ** Groups that partition the samples *)

Lemma tier_groups_partition (bs : list sample) :
  (∀ b, b ∈ bs → tier_count b = 1%nat) →
  bs ≡ₚ small_ops bs ++ medium_ops bs ++ large_ops bs.
Proof.
  induction bs as [|b bs IH]; intros Hone; [done|].
  assert (tier_count b = 1%nat) as Hb by (apply Hone; left).
  specialize (IH (fun b' Hb' => Hone b' (list_elem_of_further _ _ _ Hb'))).
  unfold small_ops, medium_ops, large_ops, tier_count in *. cbn [List.filter].
  destruct (contains "small" (operation b)), (contains "medium" (operation b)),
    (contains "large" (operation b)); try discriminate; cbn [app].
  - by constructor.
  - rewrite <- Permutation_middle. by constructor.
  - rewrite app_assoc, <- Permutation_middle, <- app_assoc. by constructor.
Qed.

Lemma tier_groups_total (bs : list sample) :
  (length (small_ops bs) + length (medium_ops bs) + length (large_ops bs))%nat
  = sum_list (tier_count <$> bs).
Proof.
  induction bs as [|b bs IH]; [done|].
  rewrite fmap_cons. change (sum_list (tier_count b :: (tier_count <$> bs)))
    with (tier_count b + sum_list (tier_count <$> bs))%nat.
  rewrite <- IH. unfold small_ops, medium_ops, large_ops, tier_count. cbn [List.filter].
  destruct (contains "small" (operation b)), (contains "medium" (operation b)),
    (contains "large" (operation b)); cbn [length]; lia.
Qed.

(** ** Failures *)

Section Failures.
Context {E : Environment}.

Lemma io_raises effect w e :
  io_fault (io_calls w) = Some e →
  io effect w
  = (Raise e, World (fs w) (S (io_calls w)) (clock_reads w) (stdout w) (rmtree_log w)).
Proof. intros He. unfold io. by rewrite He. Qed.

(** Without a table the first visual cannot be written: its directory is
    made, then the modulo raises. *)
Lemma create_without_tables temp_dir v kb w :
  no_io_faults → 0 < v →
  ∃ k, create_performance_test_project temp_dir 0 v kb true w
       = (Raise (ZeroDivisionError "integer modulo by zero"),
          advance (fun f => add_dirs (visual_dir temp_dir 0)
                              (fixture_tree temp_dir 0 0 kb true f)) k w).
Proof.
  intros Hio Hv. unfold create_performance_test_project.
  do 3 run_step (makedirs_ok Hio _ _).
  run_step (write_text_ok Hio _ _ _).
  unfold write_text at 1 2.
  do 2 run_step (for_each_io Hio _ _ _).
  run_step (makedirs_ok Hio _ _).
  run_step (write_text_ok Hio _ _ _).
  run_step (json_dump_ok Hio _ _ _ _).
  unfold range at 1. rewrite (seqZ_cons 0 v) by lia. cbn [for_each].
  run_step (makedirs_ok Hio _ _).
  change (py_mod 0 0) with (@Raise Z (ZeroDivisionError "integer modulo by zero")).
  rewrite ?bind_assoc, bind_lift_raise, !advance_advance.
  eexists. reflexivity.
Qed.

Lemma summary_analysis_save_fails (rs : results_t) w e :
  io_fault (io_calls w) = Some e →
  small_ops (benchmarks rs) ≠ [] →
  medium_ops (benchmarks rs) ≠ [] →
  large_ops (benchmarks rs) ≠ [] →
  summary_analysis rs w
  = (Raise e,
     World (fs w) (S (io_calls w)) (clock_reads w)
           (stdout w ++ summary_trace_before_save (benchmarks rs)
                          (scaling_factor_of (benchmarks rs)))
           (rmtree_log w)).
Proof.
  intros He Hs Hm Hl. unfold summary_analysis. cbn zeta.
  do 3 run_step (print_ok _ _).
  rewrite !average_nonempty by done.
  rewrite bind_lift_ok. run_step (print_ok _ _).
  rewrite bind_lift_ok. run_step (print_ok _ _).
  rewrite bind_lift_ok. run_step (print_ok _ _).
  match goal with
  | |- context [bind (scaling_analysis ?s ?l) _ ?w0] =>
      destruct (scaling_analysis_ok s l w0 Hs Hl) as (sf & Hsf & Hrun)
  end.
  rewrite scaling_factor_float in Hsf. injection Hsf as <-.
  run_step Hrun. rewrite !bind_lift_ok.
  unfold json_dump. rewrite ?bind_assoc. erewrite bind_raise; [|by apply io_raises].
  unfold say, summary_trace_before_save, scaling_factor_of.
  cbn [fs io_calls clock_reads stdout rmtree_log]. f_equal. f_equal.
  rewrite <- !app_assoc. reflexivity.
Qed.

End Failures.

(** ** Inside and outside the project directory *)

Lemma fixture_files_in_project temp_dir n v enh q :
  q ∈ fixture_files temp_dir n v enh → project_dir temp_dir `prefix_of` q.
Proof.
  intros Hq. apply elem_of_fixture_files in Hq.
  destruct Hq as [->|[(i & _ & ->)|[(i & _ & ->)|[[_ [->|[->|(j & _ & ->)]]]|[_ ->]]]]];
    unfold_paths; apply project_dir_prefix.
Qed.

Lemma files_in_absent f d (d' : path) :
  absent f d → d `prefix_of` d' → files_in f d' = ∅.
Proof.
  intros Habs Hpre. apply set_eq. intros p. unfold files_in.
  rewrite elem_of_filter, is_child_spec. split; [|set_solver].
  intros [[name ->] Hin]. exfalso. eapply (Habs (d' // name)).
  - unfold entries. set_solver.
  - unfold pjoin. by apply prefix_app_r.
Qed.

Lemma project_prefix_tables temp_dir : project_dir temp_dir `prefix_of` tables_dir temp_dir.
Proof. unfold tables_dir, semantic_dir, pjoin. by do 3 apply prefix_app_r. Qed.

Lemma well_formed_empty_world : well_formed (fs empty_world).
Proof. intros p Hp. cbn in Hp. set_solver. Qed.

(** The file of table [i], under the name the source gives it. *)
Lemma lookup_table_file_named temp_dir n v kb enh f i :
  0 <= i < n →
  files (fixture_tree temp_dir n v kb enh f)
    !! (tables_dir temp_dir // ("Table_" +:+ format_d 3 (i + 1) +:+ ".tmdl"))
  = Some (Text (table_content kb i)).
Proof.
  intros Hi. change (Text (table_content kb i)) with (table_text kb i).
  rewrite <- (lookup_table_file temp_dir n v kb enh f i Hi).
  unfold table_file, table_name. by rewrite append_assoc.
Qed.

(** * The definitions at work *)

Example format_d_examples :
  format_d 3 7 = "007" ∧ format_d 3 1234 = "1234" ∧ format_d 2 0 = "00"
  ∧ format_d 0 12 = "12" ∧ format_d 3 (-1) = "-01".
Proof. repeat split; reflexivity. Qed.

Example range_examples : range 3 = [0; 1; 2] ∧ range 0 = [] ∧ range (-1) = [].
Proof. repeat split; reflexivity. Qed.

Example contains_examples :
  contains "small" "rename_table_small" = true
  ∧ contains "small" "load_medium" = false
  ∧ contains "large" "small_large" = true
  ∧ contains "" "" = true.
Proof. repeat split; reflexivity. Qed.

Example table_names :
  table_name 0 = "Table_001" ∧ safe_name 0 = "Table With Spaces_001"
  ∧ safe_name 1 = "Table_002" ∧ safe_name 3 = "Table With Spaces_004".
Proof. repeat split; reflexivity. Qed.

Example visual_6_file :
  visual_file ["tmp"] 6
  = ["tmp"; "PerfTest"; "PerfTest.Report"; "definition"; "pages"; "page_02"; "visuals";
     "visual_007"; "visual.json"].
Proof. reflexivity. Qed.

Example second_table_lines :
  split_lines (table_content 0 1)
  = ["table Table_002";
     "    column Column_01"; "        dataType: string";
     "    column Column_02"; "        dataType: string";
     "    column Column_03"; "        dataType: string";
     "    column Column_04"; "        dataType: string";
     "    column Column_05"; "        dataType: string";
     ""; "    "; ""].
Proof. vm_compute. reflexivity. Qed.

Example third_relationship :
  split_lines (rel_content 2)
  = ["relationship rel_3"; "  cardinality: manyToOne";
     "  fromTable: Table_003"; "  fromColumn: Column_01";
     "  toTable: Table_004"; "  toColumn: Column_01"; ""].
Proof. vm_compute. reflexivity. Qed.

(** A fixture of 3 tables and 7 visuals, generated on an empty disk. *)
Example small_fixture :
  let '(r, w) := @create_performance_test_project quiet ["tmp"] 3 7 0 true empty_world in
  r = Ok ["tmp"; "PerfTest"]
  ∧ size (files_in (fs w) (tables_dir ["tmp"])) = 3%nat
  ∧ size (files_in (fs w) (relationships_dir ["tmp"])) = 2%nat
  ∧ size (files_named (fs w) (pages_dir ["tmp"]) "visual.json") = 7%nat
  ∧ size (subdirs_in (fs w) (pages_dir ["tmp"])) = 2%nat.
Proof. vm_compute. repeat split; reflexivity. Qed.

(** Without any table the modulo of the first visual raises. *)
Example no_table_to_reference :
  (@create_performance_test_project quiet ["tmp"] 0 1 0 true empty_world).1
  = Raise (ZeroDivisionError "integer modulo by zero").
Proof. vm_compute. reflexivity. Qed.

(** Generating over an older, larger fixture leaves the older files in
    place. *)
Example stale_tables :
  let '(_, w1) := @create_performance_test_project quiet ["tmp"] 3 0 0 false empty_world in
  let '(_, w2) := @create_performance_test_project quiet ["tmp"] 2 0 0 false w1 in
  size (files_in (fs w2) (tables_dir ["tmp"])) = 3%nat.
Proof. vm_compute. reflexivity. Qed.

(** A run whose disk fills up while the first fixture is generated: the
    error reaches the caller, after the scratch root was removed. *)
Example run_with_full_disk :
  let '(r, w) := @run_benchmarks (disk_full_at 3) empty_world in
  r = Raise (OSError "No space left on device")
  ∧ rmtree_log w = [["tmp"; "pbip_perf_test_a1b2c3"]]
  ∧ elements (entries (fs w)) = [["tmp"]; []].
Proof. vm_compute. repeat split; reflexivity. Qed.

(** A run without a scratch root: nothing is deleted. *)
Example run_without_scratch_root :
  let '(r, w) := @run_benchmarks (disk_full_at 0) empty_world in
  r = Raise (OSError "No space left on device") ∧ rmtree_log w = [].
Proof. vm_compute. repeat split; reflexivity. Qed.

(** A run whose connector rejects the model of the small tier: the error of
    the connector reaches the caller, after one sample and the cleanup. *)
Example run_with_failing_connector :
  ∃ w,
    @run_benchmarks failing_validation empty_world
    = (Raise (ConnectorError "invalid TMDL"), w)
    ∧ rmtree_log w = [["tmp"; "pbip_perf_test_a1b2c3"]]
    ∧ absent (fs w) ["tmp"; "pbip_perf_test_a1b2c3"].
Proof.
  assert (@no_io_faults failing_validation) as Hio by (intros k; reflexivity).
  rewrite run_benchmarks_unfold, (mkdtemp_ok Hio).
  set (temp_dir := gettempdir // _). set (w1 := advance _ 1 _).
  assert (∃ w2, benchmark_suite temp_dir (Results [] []) w1
                = (Raise (ConnectorError "invalid TMDL"), w2)
                ∧ rmtree_log w2 = []) as (w2 & -> & Hlog).
  { unfold benchmark_suite. do 2 run_step (print_ok _ _).
    match goal with
    | |- context [bind (create_performance_test_project ?t ?n ?v ?kb true) _ ?w0] =>
        destruct (create_performance_test_project_ok Hio t n v kb true w0) as [k Hgen];
        [lia|]; run_step Hgen; clear Hgen; lazy zeta
    end.
    eexists. split; reflexivity. }
  eexists. split; [reflexivity|]. split.
  - cbn [cleaned rmtree_log]. by rewrite Hlog.
  - by apply absent_remove_tree.
Qed.

(** * The claims about the fixture generator *)

(** C1.  For every scenario with a positive [table_count] and a non-negative
    [visual_count], generating below a scratch root where the project
    directory does not exist yet, with no filesystem call failing, returns
    the project directory and leaves exactly [table_count] files in the
    tables directory and exactly [table_count - 1] files in the relationships
    directory.  In the Enhanced variant it also leaves exactly [visual_count]
    files named [visual.json] beneath the pages directory, spread over exactly
    [ceil(visual_count / 5)] page directories: every visual lies in a page and
    every page holds a visual. *)
Theorem generate_counts `{Environment} temp_dir table_count visual_count kb enhanced w :
  no_io_faults →
  0 < table_count →
  0 <= visual_count →
  absent (fs w) (project_dir temp_dir) →
  ∃ w',
    create_performance_test_project temp_dir table_count visual_count kb enhanced w
      = (Ok (project_dir temp_dir), w')
    ∧ Z.of_nat (size (files_in (fs w') (tables_dir temp_dir))) = table_count
    ∧ Z.of_nat (size (files_in (fs w') (relationships_dir temp_dir))) = table_count - 1
    ∧ (enhanced = true →
       let visuals := files_named (fs w') (pages_dir temp_dir) "visual.json" in
       let pages := subdirs_in (fs w') (pages_dir temp_dir) in
       Z.of_nat (size visuals) = visual_count
       ∧ Z.of_nat (size pages) = ceil_div visual_count 5
       ∧ 5 * (ceil_div visual_count 5 - 1) < visual_count <= 5 * ceil_div visual_count 5
       ∧ (∀ p, p ∈ visuals → ∃ page, page ∈ pages ∧ page `prefix_of` p)
       ∧ (∀ page, page ∈ pages → ∃ p, p ∈ visuals ∧ page `prefix_of` p)).
Proof.
  intros Hio Hn Hv Habs.
  destruct (create_performance_test_project_ok Hio temp_dir table_count visual_count
              kb enhanced w) as [k Hrun]; [lia|].
  eexists. split; [exact Hrun|]. rewrite fs_advance.
  rewrite files_in_tables, files_in_relationships by done.
  split; [|split].
  - rewrite size_image_range; [lia|]. intros i j ??. apply table_file_inj; lia.
  - rewrite size_image_range; [lia|]. intros i j ??. apply rel_file_inj; lia.
  - intros ->. cbn zeta. rewrite visual_files, page_dirs by done.
    split; [|split; [|split; [|split]]].
    + rewrite size_image_range; [lia|]. intros i j ??. apply visual_file_inj; lia.
    + rewrite size_pages by done. pose proof (ceil_div_5_bounds visual_count). lia.
    + apply ceil_div_5_bounds.
    + intros p (j & -> & Hj)%elem_of_list_to_set%list_elem_of_fmap.
      exists (pages_dir temp_dir // page_id j). split.
      * apply elem_of_list_to_set, list_elem_of_fmap. eauto.
      * unfold visual_file, visual_dir, pjoin. by do 3 apply prefix_app_r.
    + intros page (j & -> & Hj)%elem_of_list_to_set%list_elem_of_fmap.
      exists (visual_file temp_dir j). split.
      * apply elem_of_list_to_set, list_elem_of_fmap. eauto.
      * unfold visual_file, visual_dir, pjoin. by do 3 apply prefix_app_r.
Qed.

Lemma generate_counts_witness :
  ∃ w',
    @create_performance_test_project quiet ["tmp"; "scratch"] 3 7 1 true empty_world
      = (Ok ["tmp"; "scratch"; "PerfTest"], w')
    ∧ Z.of_nat (size (files_in (fs w') (tables_dir ["tmp"; "scratch"]))) = 3
    ∧ Z.of_nat (size (files_in (fs w') (relationships_dir ["tmp"; "scratch"]))) = 3 - 1
    ∧ (true = true →
       let visuals := files_named (fs w') (pages_dir ["tmp"; "scratch"]) "visual.json" in
       let pages := subdirs_in (fs w') (pages_dir ["tmp"; "scratch"]) in
       Z.of_nat (size visuals) = 7
       ∧ Z.of_nat (size pages) = ceil_div 7 5
       ∧ 5 * (ceil_div 7 5 - 1) < 7 <= 5 * ceil_div 7 5
       ∧ (∀ p, p ∈ visuals → ∃ page, page ∈ pages ∧ page `prefix_of` p)
       ∧ (∀ page, page ∈ pages → ∃ p, p ∈ visuals ∧ page `prefix_of` p)).
Proof.
  apply (@generate_counts quiet ["tmp"; "scratch"] 3 7 1 true empty_world).
  - intros k. reflexivity.
  - lia.
  - lia.
  - apply absent_empty_world.
Defined.

(** C8.  In the Enhanced variant, with a positive [table_count] and no
    filesystem call failing, the generator returns and, for every visual index
    [j] in [[0, visual_count)], the file
    [pages/page_{(j // 5) + 1:02d}/visuals/visual_{j+1:03d}/visual.json]
    holds a document whose only data projection is column [Column_01] of
    table [Table_{(j % table_count) + 1:03d}].  The document is a function of
    [table_count] and [j] alone, whatever the run. *)
Theorem visual_placement `{Environment} temp_dir table_count visual_count kb w j :
  no_io_faults →
  0 < table_count →
  0 <= j < visual_count →
  ∃ w',
    create_performance_test_project temp_dir table_count visual_count kb true w
      = (Ok (project_dir temp_dir), w')
    ∧ files (fs w') !! (pages_dir temp_dir // ("page_" +:+ format_d 2 (j / 5 + 1))
                          // "visuals" // ("visual_" +:+ format_d 3 (j + 1))
                          // "visual.json")
      = Some (visual_doc table_count j)
    ∧ projections (visual_doc table_count j)
      = Some [source_ref ("Table_" +:+ format_d 3 (j mod table_count + 1)) "Column_01"].
Proof.
  intros Hio Hn Hj.
  destruct (create_performance_test_project_ok Hio temp_dir table_count visual_count
              kb true w) as [k Hrun]; [lia|].
  eexists. split; [exact Hrun|]. rewrite fs_advance. split; [|reflexivity].
  by apply (lookup_visual_file temp_dir table_count visual_count kb (fs w) j).
Qed.

Lemma visual_placement_witness :
  ∃ w',
    @create_performance_test_project quiet ["tmp"; "scratch"] 3 7 1 true empty_world
      = (Ok ["tmp"; "scratch"; "PerfTest"], w')
    ∧ files (fs w') !! (pages_dir ["tmp"; "scratch"] // ("page_" +:+ format_d 2 (6 / 5 + 1))
                          // "visuals" // ("visual_" +:+ format_d 3 (6 + 1))
                          // "visual.json")
      = Some (visual_doc 3 6)
    ∧ projections (visual_doc 3 6)
      = Some [source_ref ("Table_" +:+ format_d 3 (6 mod 3 + 1)) "Column_01"].
Proof.
  apply (@visual_placement quiet ["tmp"; "scratch"] 3 7 1 empty_world 6).
  - intros k. reflexivity.
  - lia.
  - lia.
Defined.

(** C9.  With no filesystem call failing, the generator returns and, for every
    table index [i] in [[0, table_count)], the file of table [i] holds, when
    [i] is even, exactly two measure definitions, [MeasureCount] over the
    table [Table_{i+1:03d}] and [MeasureSum] over its column [Column_01], and
    none when [i] is odd. *)
Theorem measures_by_parity `{Environment} temp_dir table_count visual_count kb enhanced w i :
  no_io_faults →
  0 <= i < table_count →
  ∃ w' c,
    create_performance_test_project temp_dir table_count visual_count kb enhanced w
      = (Ok (project_dir temp_dir), w')
    ∧ files (fs w') !! (tables_dir temp_dir // ("Table_" +:+ format_d 3 (i + 1) +:+ ".tmdl"))
      = Some c
    ∧ measure_defs c
      = if i mod 2 =? 0
        then ["    measure MeasureCount = COUNTROWS(" +:+ "Table_" +:+ format_d 3 (i + 1) +:+ ")";
              "    measure MeasureSum = SUM(" +:+ "Table_" +:+ format_d 3 (i + 1)
                +:+ "[Column_01])"]
        else [].
Proof.
  intros Hio Hi.
  destruct (create_performance_test_project_ok Hio temp_dir table_count visual_count
              kb enhanced w) as [k Hrun]; [lia|].
  exists (advance (fixture_tree temp_dir table_count visual_count kb enhanced) k w),
         (table_text kb i).
  split; [exact Hrun|]. rewrite fs_advance. split.
  - rewrite <- (lookup_table_file temp_dir table_count visual_count kb enhanced (fs w) i) by done.
    unfold table_file, table_name. by rewrite append_assoc.
  - rewrite measure_defs_table_text by lia.
    unfold measure_count, measure_sum, table_name. by rewrite !append_assoc.
Qed.

Lemma measures_by_parity_witness :
  ∃ w' c,
    @create_performance_test_project quiet ["tmp"; "scratch"] 3 7 1 true empty_world
      = (Ok ["tmp"; "scratch"; "PerfTest"], w')
    ∧ files (fs w') !! (tables_dir ["tmp"; "scratch"] // ("Table_" +:+ format_d 3 (2 + 1) +:+ ".tmdl"))
      = Some c
    ∧ measure_defs c
      = if 2 mod 2 =? 0
        then ["    measure MeasureCount = COUNTROWS(" +:+ "Table_" +:+ format_d 3 (2 + 1) +:+ ")";
              "    measure MeasureSum = SUM(" +:+ "Table_" +:+ format_d 3 (2 + 1)
                +:+ "[Column_01])"]
        else [].
Proof.
  apply (@measures_by_parity quiet ["tmp"; "scratch"] 3 7 1 true empty_world 2).
  - intros k. reflexivity.
  - lia.
Defined.

(** C10.  With no filesystem call failing, the generator returns and, for
    every table index [i] in [[0, table_count)], the file of table [i] is
    [tables/Table_{i+1:03d}.tmdl], a name without any space; the table name
    that file declares on its first line has a space exactly when
    [i % 3 = 0], and the file name differs from the declared name (with the
    extension [.tmdl]) exactly for those indices. *)
Theorem table_file_names `{Environment} temp_dir table_count visual_count kb enhanced w i :
  no_io_faults →
  0 <= i < table_count →
  ∃ w' c declared,
    create_performance_test_project temp_dir table_count visual_count kb enhanced w
      = (Ok (project_dir temp_dir), w')
    ∧ let file_name := "Table_" +:+ format_d 3 (i + 1) +:+ ".tmdl" in
      files (fs w') !! (tables_dir temp_dir // file_name) = Some c
      ∧ has_space file_name = false
      ∧ declared_table c = Some declared
      ∧ (has_space declared = true ↔ i mod 3 = 0)
      ∧ (declared +:+ ".tmdl" ≠ file_name ↔ i mod 3 = 0).
Proof.
  intros Hio Hi.
  destruct (create_performance_test_project_ok Hio temp_dir table_count visual_count
              kb enhanced w) as [k Hrun]; [lia|].
  exists (advance (fixture_tree temp_dir table_count visual_count kb enhanced) k w),
         (table_text kb i), (safe_name i).
  split; [exact Hrun|]. cbn zeta. rewrite fs_advance. split; [|split; [|split; [|split]]].
  - rewrite <- (lookup_table_file temp_dir table_count visual_count kb enhanced (fs w) i) by done.
    unfold table_file, table_name. by rewrite append_assoc.
  - apply has_space_table_file_name. lia.
  - apply declared_table_table_text. lia.
  - apply has_space_safe_name. lia.
  - apply safe_name_differs.
Qed.

Lemma table_file_names_witness :
  ∃ w' c declared,
    @create_performance_test_project quiet ["tmp"; "scratch"] 4 7 1 true empty_world
      = (Ok ["tmp"; "scratch"; "PerfTest"], w')
    ∧ let file_name := "Table_" +:+ format_d 3 (3 + 1) +:+ ".tmdl" in
      files (fs w') !! (tables_dir ["tmp"; "scratch"] // file_name) = Some c
      ∧ has_space file_name = false
      ∧ declared_table c = Some declared
      ∧ (has_space declared = true ↔ 3 mod 3 = 0)
      ∧ (declared +:+ ".tmdl" ≠ file_name ↔ 3 mod 3 = 0).
Proof.
  apply (@table_file_names quiet ["tmp"; "scratch"] 4 7 1 true empty_world 3).
  - intros k. reflexivity.
  - lia.
Defined.

(** * The claims about the aggregation *)

(** C2, as the code has it.  A sample belongs to the group of a tier exactly
    when the name of the tier occurs, letter case included, in its operation
    label; the three groups are formed independently of each other, so a
    label in which several tier names occur puts its sample into the group of
    each of them, and a sample whose label holds no tier name is in no group:
    the groups are the same with and without it. *)
Theorem grouping_by_substring (bs : list sample) (b : sample) :
  (b ∈ small_ops bs ↔ b ∈ bs ∧ is_substring "small" (operation b))
  ∧ (b ∈ medium_ops bs ↔ b ∈ bs ∧ is_substring "medium" (operation b))
  ∧ (b ∈ large_ops bs ↔ b ∈ bs ∧ is_substring "large" (operation b))
  ∧ (contains "small" "load_Small" = false)
  ∧ (¬ is_substring "small" (operation b) →
     ¬ is_substring "medium" (operation b) →
     ¬ is_substring "large" (operation b) →
     ∀ bs1 bs2, tier_groups (bs1 ++ b :: bs2) = tier_groups (bs1 ++ bs2)).
Proof.
  split; [apply elem_of_tier|]. split; [apply elem_of_tier|].
  split; [apply elem_of_tier|]. split; [reflexivity|].
  intros Hs Hm Hl bs1 bs2. unfold tier_groups, small_ops, medium_ops, large_ops.
  by rewrite !tier_drops by done.
Qed.

(** C2, as stated, fails: the sample labelled [small_large] is put into two
    groups, that of the small tier and that of the large tier. *)
Lemma ambiguous_label_in_two_tiers :
  ¬ in_at_most_one_tier [Sample "small_large" 1] (Sample "small_large" 1).
Proof.
  intros H.
  specialize (H 0%nat 2%nat [Sample "small_large" 1] [Sample "small_large" 1]
                eq_refl eq_refl).
  assert (0 = 2)%nat as Hne; [|discriminate].
  apply H; apply list_elem_of_singleton; reflexivity.
Qed.

(** C3.  When the groups of the smallest and of the largest tier both have a
    sample, their averages are defined and the block "Scaling analysis"
    completes without an error.  The scaling factor it prints is the
    largest-tier average divided by the smallest-tier average when the latter
    is positive, and [0] otherwise, in particular when that average is zero.
    The line printed last is the sub-linear message when the factor is below
    30, the linear one when it is not but is below 100, and the super-linear
    one in every other case. *)
Theorem scaling_classification (small_ops large_ops : list sample) (w : world) :
  small_ops ≠ [] →
  large_ops ≠ [] →
  ∃ small_avg large_avg scaling_factor w',
    average small_ops = Ok (PyFloat small_avg)
    ∧ average large_ops = Ok (PyFloat large_avg)
    ∧ scaling_analysis small_ops large_ops w = (Ok tt, w')
    ∧ stdout w' = stdout w ++ scaling_trace scaling_factor
    ∧ ((0 <? small_avg)%float = true →
       scaling_factor = PyFloat (large_avg / small_avg))
    ∧ ((small_avg =? 0)%float = true → scaling_factor = PyInt 0)
    ∧ ((0 <? small_avg)%float = false → scaling_factor = PyInt 0)
    ∧ last (stdout w')
      = Some (if py_lt scaling_factor (PyInt 30) then sub_linear_msg
              else if py_lt scaling_factor (PyInt 100) then linear_msg
              else super_linear_msg).
Proof.
  intros Hs Hl.
  destruct (scaling_analysis_ok small_ops large_ops w Hs Hl) as (sf & Hsf & Hrun).
  rewrite scaling_factor_float in Hsf. injection Hsf as <-.
  eexists (float_mean small_ops), (float_mean large_ops), _, _.
  split; [by apply average_nonempty|]. split; [by apply average_nonempty|].
  split; [exact Hrun|]. cbn [stdout].
  split; [done|]. split; [by intros ->|]. split; [by intros ->%zero_not_positive|].
  split; [by intros ->|].
  unfold scaling_trace.
  match goal with |- last (?l ++ [?a; ?b; ?c; ?d]) = _ =>
    change (l ++ [a; b; c; d]) with (l ++ [a; b; c] ++ [d]) end.
  by rewrite app_assoc, last_snoc.
Qed.

Lemma scaling_classification_witness :
  ∃ small_avg large_avg scaling_factor w',
    average [Sample "load_small" 10] = Ok (PyFloat small_avg)
    ∧ average [Sample "load_large" 25] = Ok (PyFloat large_avg)
    ∧ scaling_analysis [Sample "load_small" 10] [Sample "load_large" 25] empty_world
      = (Ok tt, w')
    ∧ stdout w' = stdout empty_world ++ scaling_trace scaling_factor
    ∧ ((0 <? small_avg)%float = true →
       scaling_factor = PyFloat (large_avg / small_avg))
    ∧ ((small_avg =? 0)%float = true → scaling_factor = PyInt 0)
    ∧ ((0 <? small_avg)%float = false → scaling_factor = PyInt 0)
    ∧ last (stdout w')
      = Some (if py_lt scaling_factor (PyInt 30) then sub_linear_msg
              else if py_lt scaling_factor (PyInt 100) then linear_msg
              else super_linear_msg).
Proof.
  apply (scaling_classification [Sample "load_small" 10] [Sample "load_large" 25]
           empty_world).
  - discriminate.
  - discriminate.
Defined.

(** The property of the specification for averages 10.0 and 25.0: the factor
    is 2.5 and the verdict sub-linear. *)
Example scaling_10_25 :
  scaling_factor (PyFloat 10) (PyFloat 25) = Ok (PyFloat 2.5)
  ∧ growth_msg (PyFloat 2.5) = sub_linear_msg.
Proof. split; reflexivity. Qed.

(** A smallest-tier average of 0.0 gives the factor 0 without an error. *)
Example scaling_zero_small :
  scaling_factor (PyFloat 0) (PyFloat 25) = Ok (PyInt 0)
  ∧ growth_msg (PyInt 0) = sub_linear_msg.
Proof. split; reflexivity. Qed.

Example scaling_linear : growth_msg (PyFloat 30) = linear_msg.
Proof. reflexivity. Qed.

Example scaling_super_linear : growth_msg (PyFloat 100) = super_linear_msg.
Proof. reflexivity. Qed.

(** C7.  A group's average is defined exactly when the group has a sample.
    When the group of some tier is empty, the summary analysis raises
    [ZeroDivisionError]: it returns no summary and has not touched the
    filesystem, so no artifact is written. *)
Theorem aggregation_needs_every_tier `{Environment} (results : results_t) (w : world) :
  small_ops (benchmarks results) = []
  ∨ medium_ops (benchmarks results) = []
  ∨ large_ops (benchmarks results) = [] →
  (∀ ops, (∃ a, average ops = Ok a) ↔ ops ≠ [])
  ∧ ∃ msg w',
      summary_analysis results w = (Raise (ZeroDivisionError msg), w')
      ∧ fs w' = fs w
      ∧ io_calls w' = io_calls w.
Proof.
  intros Hempty. split; [apply average_defined|].
  destruct (summary_analysis_empty_tier results w Hempty) as (w' & ? & ? & ?). eauto.
Qed.

Lemma aggregation_needs_every_tier_witness :
  (∀ ops, (∃ a, average ops = Ok a) ↔ ops ≠ [])
  ∧ ∃ msg w',
      @summary_analysis quiet
        (Results [Sample "load_small" 1; Sample "load_large" 3] []) empty_world
      = (Raise (ZeroDivisionError msg), w')
      ∧ fs w' = fs empty_world
      ∧ io_calls w' = io_calls empty_world.
Proof.
  apply (@aggregation_needs_every_tier quiet
           (Results [Sample "load_small" 1; Sample "load_large" 3] []) empty_world).
  right. left. reflexivity.
Defined.

(** * The claims about the benchmark run *)

(** C4.  Whatever the environment does, [run_benchmarks] ends in one of two
    ways.  If no scratch root could be made, it raises that error and deletes
    nothing.  Otherwise, whatever the outcome of the [try] block, be it normal
    or an exception of any of its steps, the run ends with that same outcome,
    [shutil.rmtree] has been called once more than before the run, on the
    scratch root, as the last action, and the filesystem is what is left of it
    after that deletion, which leaves out what cannot be deleted without
    raising; if everything can be deleted, nothing exists at or below the
    scratch root afterwards. *)
Theorem cleanup_on_every_exit `{Environment} (w : world) :
  match mkdtemp "pbip_perf_test_" (banner w) with
  | (Raise e, w1) =>
      run_benchmarks w = (Raise e, w1) ∧ rmtree_log w1 = rmtree_log w
  | (Ok temp_dir, w1) =>
      let (r, w2) := benchmark_suite temp_dir (Results [] []) w1 in
      ∃ w3,
        run_benchmarks w = (outcome_of r, w3)
        ∧ rmtree_log w3 = rmtree_log w ++ [temp_dir]
        ∧ fs w3 = remove_tree temp_dir (fs w2)
        ∧ ((∀ p, undeletable p = false) → absent (fs w3) temp_dir)
  end.
Proof.
  rewrite run_benchmarks_unfold.
  pose proof (keeps_log_mkdtemp "pbip_perf_test_" (banner w)) as Hlog1.
  destruct (mkdtemp "pbip_perf_test_" (banner w)) as [[temp_dir|e] w1]; cbn in Hlog1.
  - pose proof (keeps_log_benchmark_suite temp_dir (Results [] []) w1) as Hlog2.
    destruct (benchmark_suite temp_dir (Results [] []) w1) as [r w2]. cbn in Hlog2.
    eexists. split; [reflexivity|]. cbn [cleaned rmtree_log fs].
    split; [by rewrite Hlog2, Hlog1|]. split; [done|].
    apply absent_remove_tree.
  - done.
Qed.

(** C5.  When no filesystem call fails and the connector never raises, the
    run completes and the artifact it leaves holds exactly ten samples, in the
    order in which the operations ran: load, validate and fix for the small
    tier, one rename for the small tier, then load, validate and fix for the
    medium and for the large tier; the rename of the small tier is the only
    rename sample.  The sample number [k] is the time between the clock
    readings [2k] and [2k + 1] of the run. *)
Theorem ten_samples_in_order `{Environment} (w : world) :
  no_io_faults →
  connector_never_raises →
  ∃ w' samples summary,
    run_benchmarks w = (Ok tt, w')
    ∧ files (fs w') !! ["benchmark_results.json"]
      = Some (JsonDoc (Some 2%nat) (json_of_results (Results samples summary)))
    ∧ operation <$> samples
      = ["load_small"; "validate_small"; "fix_dax_small"; "rename_table_small";
         "load_medium"; "validate_medium"; "fix_dax_medium";
         "load_large"; "validate_large"; "fix_dax_large"]
    ∧ length samples = 10%nat
    ∧ operation <$> List.filter (fun b => contains "rename" (operation b)) samples
      = ["rename_table_small"]
    ∧ time_ms <$> samples
      = (fun k => elapsed_at (2 * k + clock_reads w)) <$> seq 0 10.
Proof.
  intros Hio Hconn.
  destruct (run_benchmarks_ok w Hio Hconn) as (w' & Hrun & Hfile & _).
  exists w', (run_samples (clock_reads w)), (summary_of (run_samples (clock_reads w))).
  repeat split; done.
Qed.

Lemma ten_samples_in_order_witness :
  ∃ w' samples summary,
    @run_benchmarks quiet empty_world = (Ok tt, w')
    ∧ files (fs w') !! ["benchmark_results.json"]
      = Some (JsonDoc (Some 2%nat) (json_of_results (Results samples summary)))
    ∧ operation <$> samples
      = ["load_small"; "validate_small"; "fix_dax_small"; "rename_table_small";
         "load_medium"; "validate_medium"; "fix_dax_medium";
         "load_large"; "validate_large"; "fix_dax_large"]
    ∧ length samples = 10%nat
    ∧ operation <$> List.filter (fun b => contains "rename" (operation b)) samples
      = ["rename_table_small"]
    ∧ time_ms <$> samples
      = (fun k => @elapsed_at quiet (2 * k + clock_reads empty_world)) <$> seq 0 10.
Proof.
  apply (@ten_samples_in_order quiet empty_world).
  - intros k. reflexivity.
  - intros c. repeat split; intros; intros f; exists c; reflexivity.
Defined.

(** C6, as the code has it.  When no filesystem call fails and the connector
    never raises, the run completes and its artifact is the document with the
    member [benchmarks], the full sequence of samples, and the member
    [summary], a record of exactly three members: the averages of the small,
    the medium and the large tier.  The scaling factor, the largest-tier
    average divided by the smallest-tier one (0 unless the latter is
    positive), and the growth message are printed to the console; they are no
    part of the summary record. *)
Theorem summary_record `{Environment} (w : world) :
  no_io_faults →
  connector_never_raises →
  ∃ w' samples small_avg medium_avg large_avg scaling_factor before after,
    run_benchmarks w = (Ok tt, w')
    ∧ length samples = 10%nat
    ∧ average (small_ops samples) = Ok (PyFloat small_avg)
    ∧ average (medium_ops samples) = Ok (PyFloat medium_avg)
    ∧ average (large_ops samples) = Ok (PyFloat large_avg)
    ∧ files (fs w') !! ["benchmark_results.json"]
      = Some (JsonDoc (Some 2%nat)
                (JObj [("benchmarks", JArr (json_of_sample <$> samples));
                       ("summary",
                        JObj [("small_avg_ms", JNum (PyFloat small_avg));
                              ("medium_avg_ms", JNum (PyFloat medium_avg));
                              ("large_avg_ms", JNum (PyFloat large_avg))])]))
    ∧ scaling_factor
      = (if (0 <? small_avg)%float then PyFloat (large_avg / small_avg) else PyInt 0)
    ∧ stdout w' = before ++ scaling_trace scaling_factor ++ after.
Proof.
  intros Hio Hconn.
  destruct (run_benchmarks_ok w Hio Hconn) as (w' & Hrun & Hfile & before & Hout).
  destruct (run_samples_groups (clock_reads w)) as (Hs & Hm & Hl).
  exists w', (run_samples (clock_reads w)).
  eexists _, _, _, _, _, _.
  split; [exact Hrun|]. split; [done|].
  split; [by apply average_nonempty|]. split; [by apply average_nonempty|].
  split; [by apply average_nonempty|]. split; [exact Hfile|]. split; [reflexivity|].
  rewrite Hout. unfold summary_trace. rewrite app_assoc. reflexivity.
Qed.

Lemma summary_record_witness :
  ∃ w' samples small_avg medium_avg large_avg scaling_factor before after,
    @run_benchmarks quiet empty_world = (Ok tt, w')
    ∧ length samples = 10%nat
    ∧ average (small_ops samples) = Ok (PyFloat small_avg)
    ∧ average (medium_ops samples) = Ok (PyFloat medium_avg)
    ∧ average (large_ops samples) = Ok (PyFloat large_avg)
    ∧ files (fs w') !! ["benchmark_results.json"]
      = Some (JsonDoc (Some 2%nat)
                (JObj [("benchmarks", JArr (json_of_sample <$> samples));
                       ("summary",
                        JObj [("small_avg_ms", JNum (PyFloat small_avg));
                              ("medium_avg_ms", JNum (PyFloat medium_avg));
                              ("large_avg_ms", JNum (PyFloat large_avg))])]))
    ∧ scaling_factor
      = (if (0 <? small_avg)%float then PyFloat (large_avg / small_avg) else PyInt 0)
    ∧ stdout w' = before ++ scaling_trace scaling_factor ++ after.
Proof.
  apply (@summary_record quiet empty_world).
  - intros k. reflexivity.
  - intros c. repeat split; intros; intros f; exists c; reflexivity.
Defined.

(** C6, as stated, fails: in a run on an empty disk with a connector that
    does nothing, the summary record of the artifact has three members, the
    three averages, and none of them is a text: it holds neither a scaling
    factor nor a growth classification. *)
Lemma summary_lacks_scaling_and_growth :
  ∃ w' doc fields,
    @run_benchmarks quiet empty_world = (Ok tt, w')
    ∧ files (fs w') !! ["benchmark_results.json"] = Some doc
    ∧ summary_members doc = Some fields
    ∧ fields.*1 = ["small_avg_ms"; "medium_avg_ms"; "large_avg_ms"]
    ∧ ¬ has_text_member fields.
Proof.
  destruct (@run_benchmarks_ok quiet empty_world quiet_no_io_faults
              quiet_connector_never_raises) as (w' & Hrun & Hfile & _).
  eexists w', _, _. split; [exact Hrun|]. split; [exact Hfile|].
  split; [reflexivity|]. split; [reflexivity|].
  intros (k & text & Hin). cbn in Hin.
  repeat (apply elem_of_cons in Hin as [Hin|Hin]; [discriminate|]).
  by apply elem_of_nil in Hin.
Qed.

(** * Further properties of the fixture generator *)

(** X1.  With no filesystem call failing, for every [i] in
    [[0, table_count - 1)] the file [relationships/rel_{i+1}.tmdl] holds the
    relationship [rel_{i+1}], many to one, from column [Column_01] of
    [Table_{i+1:03d}] to column [Column_01] of [Table_{i+2:03d}], and the
    files of both tables exist: the relationships form one chain along the
    tables. *)
Theorem relationship_chain `{Environment} temp_dir table_count visual_count kb enhanced w i :
  no_io_faults →
  0 <= i < table_count - 1 →
  ∃ w' s,
    create_performance_test_project temp_dir table_count visual_count kb enhanced w
      = (Ok (project_dir temp_dir), w')
    ∧ files (fs w') !! (relationships_dir temp_dir // ("rel_" +:+ format_d 0 (i + 1) +:+ ".tmdl"))
      = Some (Text s)
    ∧ split_lines s
      = ["relationship rel_" +:+ format_d 0 (i + 1);
         "  cardinality: manyToOne";
         "  fromTable: Table_" +:+ format_d 3 (i + 1);
         "  fromColumn: Column_01";
         "  toTable: Table_" +:+ format_d 3 (i + 2);
         "  toColumn: Column_01";
         ""]
    ∧ is_Some (files (fs w') !! (tables_dir temp_dir // ("Table_" +:+ format_d 3 (i + 1) +:+ ".tmdl")))
    ∧ is_Some (files (fs w') !! (tables_dir temp_dir // ("Table_" +:+ format_d 3 (i + 2) +:+ ".tmdl"))).
Proof.
  intros Hio Hi.
  destruct (create_performance_test_project_ok Hio temp_dir table_count visual_count
              kb enhanced w) as [k Hrun]; [lia|].
  eexists _, (rel_content i). split; [exact Hrun|]. rewrite fs_advance.
  split; [|split; [|split]].
  - by apply (lookup_rel_file temp_dir table_count visual_count kb enhanced (fs w) i).
  - rewrite rel_content_lines by lia. unfold table_name.
    replace (i + 1 + 1) with (i + 2) by lia. reflexivity.
  - exists (table_text kb i).
    rewrite <- (lookup_table_file temp_dir table_count visual_count kb enhanced (fs w) i) by lia.
    unfold table_file, table_name. by rewrite append_assoc.
  - exists (table_text kb (i + 1)).
    rewrite <- (lookup_table_file temp_dir table_count visual_count kb enhanced (fs w) (i + 1))
      by lia.
    unfold table_file, table_name. replace (i + 1 + 1) with (i + 2) by lia.
    by rewrite append_assoc.
Qed.

Lemma relationship_chain_witness :
  ∃ w' s,
    @create_performance_test_project quiet ["tmp"; "scratch"] 3 7 1 true empty_world
      = (Ok ["tmp"; "scratch"; "PerfTest"], w')
    ∧ files (fs w') !! (relationships_dir ["tmp"; "scratch"] // ("rel_" +:+ format_d 0 (1 + 1) +:+ ".tmdl"))
      = Some (Text s)
    ∧ split_lines s
      = ["relationship rel_" +:+ format_d 0 (1 + 1);
         "  cardinality: manyToOne";
         "  fromTable: Table_" +:+ format_d 3 (1 + 1);
         "  fromColumn: Column_01";
         "  toTable: Table_" +:+ format_d 3 (1 + 2);
         "  toColumn: Column_01";
         ""]
    ∧ is_Some (files (fs w') !! (tables_dir ["tmp"; "scratch"] // ("Table_" +:+ format_d 3 (1 + 1) +:+ ".tmdl")))
    ∧ is_Some (files (fs w') !! (tables_dir ["tmp"; "scratch"] // ("Table_" +:+ format_d 3 (1 + 2) +:+ ".tmdl"))).
Proof.
  apply (@relationship_chain quiet ["tmp"; "scratch"] 3 7 1 true empty_world 1).
  - intros k. reflexivity.
  - lia.
Defined.

(** X2.  In the Legacy variant, with no filesystem call failing and a project
    directory that does not exist yet, the generator returns for every
    [table_count] and [visual_count], also for [table_count = 0]; the report
    directory then holds exactly one file, [report.json], a document of
    version 1.0 with an empty list of sections, and no sub-directory; and
    [visual_count] has no influence on the filesystem that results. *)
Theorem legacy_report `{Environment} temp_dir table_count visual_count kb w :
  no_io_faults →
  absent (fs w) (project_dir temp_dir) →
  ∃ w',
    create_performance_test_project temp_dir table_count visual_count kb false w
      = (Ok (project_dir temp_dir), w')
    ∧ files (fs w') !! (report_dir temp_dir // "report.json")
      = Some (JsonDoc None (JObj [("version", JStr "1.0"); ("sections", JArr [])]))
    ∧ files_in (fs w') (report_dir temp_dir) = {[report_dir temp_dir // "report.json"]}
    ∧ subdirs_in (fs w') (report_dir temp_dir) = ∅
    ∧ ∀ visual_count', ∃ w'',
        create_performance_test_project temp_dir table_count visual_count' kb false w
          = (Ok (project_dir temp_dir), w'')
        ∧ fs w'' = fs w'.
Proof.
  intros Hio Habs.
  destruct (create_performance_test_project_ok Hio temp_dir table_count visual_count
              kb false w) as [k Hrun]; [done|].
  eexists. split; [exact Hrun|]. rewrite fs_advance.
  split; [|split; [|split]].
  - rewrite files_fixture_tree. cbn zeta. apply lookup_insert_eq.
  - by apply files_in_report_legacy.
  - by apply subdirs_in_report_legacy.
  - intros v'.
    destruct (create_performance_test_project_ok Hio temp_dir table_count v'
                kb false w) as [k' Hrun']; [done|].
    eexists. split; [exact Hrun'|]. reflexivity.
Qed.

Lemma legacy_report_witness :
  ∃ w',
    @create_performance_test_project quiet ["tmp"; "scratch"] 0 7 1 false empty_world
      = (Ok ["tmp"; "scratch"; "PerfTest"], w')
    ∧ files (fs w') !! (report_dir ["tmp"; "scratch"] // "report.json")
      = Some (JsonDoc None (JObj [("version", JStr "1.0"); ("sections", JArr [])]))
    ∧ files_in (fs w') (report_dir ["tmp"; "scratch"])
      = {[report_dir ["tmp"; "scratch"] // "report.json"]}
    ∧ subdirs_in (fs w') (report_dir ["tmp"; "scratch"]) = ∅
    ∧ ∀ visual_count', ∃ w'',
        @create_performance_test_project quiet ["tmp"; "scratch"] 0 visual_count' 1 false
          empty_world
          = (Ok ["tmp"; "scratch"; "PerfTest"], w'')
        ∧ fs w'' = fs w'.
Proof.
  apply (@legacy_report quiet ["tmp"; "scratch"] 0 7 1 empty_world).
  - intros k. reflexivity.
  - apply absent_empty_world.
Defined.

(** X3.  In the Enhanced variant with [table_count = 0] and at least one
    visual, with no filesystem call failing, the generator raises
    [ZeroDivisionError] at the first visual: the manifest and the page index
    are written and the directory of the first visual is made, but no
    visual descriptor is written. *)
Theorem visuals_need_a_table `{Environment} temp_dir visual_count kb w :
  no_io_faults →
  0 < visual_count →
  ∃ w',
    create_performance_test_project temp_dir 0 visual_count kb true w
      = (Raise (ZeroDivisionError "integer modulo by zero"), w')
    ∧ is_Some (files (fs w') !! (definition_dir temp_dir // "report.json"))
    ∧ is_Some (files (fs w') !! (pages_dir temp_dir // "pages.json"))
    ∧ pages_dir temp_dir // "page_01" // "visuals" // "visual_001" ∈ dirs (fs w')
    ∧ files (fs w') !! (pages_dir temp_dir // "page_01" // "visuals" // "visual_001"
                          // "visual.json")
      = files (fs w) !! (pages_dir temp_dir // "page_01" // "visuals" // "visual_001"
                          // "visual.json").
Proof.
  intros Hio Hv.
  destruct (create_without_tables temp_dir visual_count kb w Hio Hv) as [k Hrun].
  eexists. split; [exact Hrun|]. rewrite fs_advance. cbn [files dirs add_dirs].
  split; [|split; [|split]].
  - rewrite files_fixture_tree. cbn zeta.
    rewrite lookup_insert_all_ne
      by (intros (j & _ & Hj%elem_of_range)%list_elem_of_fmap; lia).
    rewrite lookup_insert_ne by (intros Heq; path_eq Heq).
    rewrite lookup_insert_eq. by eexists.
  - rewrite files_fixture_tree. cbn zeta.
    rewrite lookup_insert_all_ne
      by (intros (j & _ & Hj%elem_of_range)%list_elem_of_fmap; lia).
    rewrite lookup_insert_eq. by eexists.
  - apply elem_of_union_l, elem_of_list_to_set, elem_of_ancestors. reflexivity.
  - apply (lookup_fixture_tree_other temp_dir 0 0 kb true (fs w) (visual_file temp_dir 0)).
    intros Hin. apply elem_of_fixture_files in Hin.
    destruct Hin as [Heq|[(i & Hi & Heq)|[(i & Hi & Heq)|[[_ [Heq|[Heq|(j & Hj & Heq)]]]|[? _]]]]];
      try done; try lia; by path_eq Heq.
Qed.

Lemma visuals_need_a_table_witness :
  ∃ w',
    @create_performance_test_project quiet ["tmp"] 0 2 1 true empty_world
      = (Raise (ZeroDivisionError "integer modulo by zero"), w')
    ∧ is_Some (files (fs w') !! (definition_dir ["tmp"] // "report.json"))
    ∧ is_Some (files (fs w') !! (pages_dir ["tmp"] // "pages.json"))
    ∧ pages_dir ["tmp"] // "page_01" // "visuals" // "visual_001" ∈ dirs (fs w')
    ∧ files (fs w') !! (pages_dir ["tmp"] // "page_01" // "visuals" // "visual_001"
                          // "visual.json")
      = files (fs empty_world) !! (pages_dir ["tmp"] // "page_01" // "visuals" // "visual_001"
                          // "visual.json").
Proof.
  apply (@visuals_need_a_table quiet ["tmp"] 2 1 empty_world).
  - intros k. reflexivity.
  - lia.
Defined.

(** X4.  With no filesystem call failing, the file of every table [i] in
    [[0, table_count)] defines exactly five columns, [Column_01] to
    [Column_05], in this order on the lines after the first, each followed
    by the line that gives it the data type [string]. *)
Theorem five_string_columns `{Environment} temp_dir table_count visual_count kb enhanced w i :
  no_io_faults →
  0 <= i < table_count →
  ∃ w' s,
    create_performance_test_project temp_dir table_count visual_count kb enhanced w
      = (Ok (project_dir temp_dir), w')
    ∧ files (fs w') !! (tables_dir temp_dir // ("Table_" +:+ format_d 3 (i + 1) +:+ ".tmdl"))
      = Some (Text s)
    ∧ List.filter is_column_def (split_lines s)
      = ["    column Column_01"; "    column Column_02"; "    column Column_03";
         "    column Column_04"; "    column Column_05"]
    ∧ take 10 (drop 1 (split_lines s))
      = ["    column Column_01"; "        dataType: string";
         "    column Column_02"; "        dataType: string";
         "    column Column_03"; "        dataType: string";
         "    column Column_04"; "        dataType: string";
         "    column Column_05"; "        dataType: string"].
Proof.
  intros Hio Hi.
  destruct (create_performance_test_project_ok Hio temp_dir table_count visual_count
              kb enhanced w) as [k Hrun]; [lia|].
  eexists _, (table_content kb i). split; [exact Hrun|]. rewrite fs_advance.
  split; [|split].
  - apply (lookup_table_file_named temp_dir table_count visual_count kb enhanced (fs w) i Hi).
  - apply column_defs_table_content. lia.
  - apply column_lines_table_content. lia.
Qed.

Lemma five_string_columns_witness :
  ∃ w' s,
    @create_performance_test_project quiet ["tmp"; "scratch"] 3 7 1 true empty_world
      = (Ok ["tmp"; "scratch"; "PerfTest"], w')
    ∧ files (fs w') !! (tables_dir ["tmp"; "scratch"] // ("Table_" +:+ format_d 3 (2 + 1) +:+ ".tmdl"))
      = Some (Text s)
    ∧ List.filter is_column_def (split_lines s)
      = ["    column Column_01"; "    column Column_02"; "    column Column_03";
         "    column Column_04"; "    column Column_05"]
    ∧ take 10 (drop 1 (split_lines s))
      = ["    column Column_01"; "        dataType: string";
         "    column Column_02"; "        dataType: string";
         "    column Column_03"; "        dataType: string";
         "    column Column_04"; "        dataType: string";
         "    column Column_05"; "        dataType: string"].
Proof.
  apply (@five_string_columns quiet ["tmp"; "scratch"] 3 7 1 true empty_world 2).
  - intros k. reflexivity.
  - lia.
Defined.

(** X5.  With no filesystem call failing, the file of every table [i] in
    [[0, table_count)] is, for a size of [avg_table_size_kb], longer by
    [300 * avg_table_size_kb] characters than it is for the size 0, and as
    long as for the size 0 when [avg_table_size_kb] is negative: a requested
    kilobyte adds 300 bytes of padding. *)
Theorem padding_adds_300_per_kb `{Environment} temp_dir table_count visual_count kb enhanced w i :
  no_io_faults →
  0 <= i < table_count →
  ∃ w' s,
    create_performance_test_project temp_dir table_count visual_count kb enhanced w
      = (Ok (project_dir temp_dir), w')
    ∧ files (fs w') !! (tables_dir temp_dir // ("Table_" +:+ format_d 3 (i + 1) +:+ ".tmdl"))
      = Some (Text s)
    ∧ Z.of_nat (String.length s)
      = Z.of_nat (String.length (table_content 0 i)) + 300 * Z.max 0 kb.
Proof.
  intros Hio Hi.
  destruct (create_performance_test_project_ok Hio temp_dir table_count visual_count
              kb enhanced w) as [k Hrun]; [lia|].
  eexists _, (table_content kb i). split; [exact Hrun|]. rewrite fs_advance. split.
  - apply (lookup_table_file_named temp_dir table_count visual_count kb enhanced (fs w) i Hi).
  - rewrite length_table_content. lia.
Qed.

Lemma padding_adds_300_per_kb_witness :
  ∃ w' s,
    @create_performance_test_project quiet ["tmp"; "scratch"] 3 7 5 true empty_world
      = (Ok ["tmp"; "scratch"; "PerfTest"], w')
    ∧ files (fs w') !! (tables_dir ["tmp"; "scratch"] // ("Table_" +:+ format_d 3 (2 + 1) +:+ ".tmdl"))
      = Some (Text s)
    ∧ Z.of_nat (String.length s)
      = Z.of_nat (String.length (table_content 0 2)) + 300 * Z.max 0 5.
Proof.
  apply (@padding_adds_300_per_kb quiet ["tmp"; "scratch"] 3 7 5 true empty_world 2).
  - intros k. reflexivity.
  - lia.
Defined.

(** X6.  Generating the same fixture a second time in the same place changes
    nothing: with no filesystem call failing, both calls return and the
    filesystem after the second is the filesystem after the first. *)
Theorem regenerating_changes_nothing `{Environment}
    temp_dir table_count visual_count kb enhanced w :
  no_io_faults →
  (enhanced = true → 0 < visual_count → table_count ≠ 0) →
  ∃ w1 w2,
    create_performance_test_project temp_dir table_count visual_count kb enhanced w
      = (Ok (project_dir temp_dir), w1)
    ∧ create_performance_test_project temp_dir table_count visual_count kb enhanced w1
      = (Ok (project_dir temp_dir), w2)
    ∧ fs w2 = fs w1.
Proof.
  intros Hio Hn.
  destruct (create_performance_test_project_ok Hio temp_dir table_count visual_count
              kb enhanced w Hn) as [k1 Hrun1].
  eexists. destruct (create_performance_test_project_ok Hio temp_dir table_count visual_count
              kb enhanced
              (advance (fixture_tree temp_dir table_count visual_count kb enhanced) k1 w) Hn)
    as [k2 Hrun2].
  eexists. split; [exact Hrun1|]. split; [exact Hrun2|].
  rewrite !fs_advance. apply fixture_tree_idemp.
Qed.

Lemma regenerating_changes_nothing_witness :
  ∃ w1 w2,
    @create_performance_test_project quiet ["tmp"; "scratch"] 3 7 1 true empty_world
      = (Ok ["tmp"; "scratch"; "PerfTest"], w1)
    ∧ @create_performance_test_project quiet ["tmp"; "scratch"] 3 7 1 true w1
      = (Ok ["tmp"; "scratch"; "PerfTest"], w2)
    ∧ fs w2 = fs w1.
Proof.
  apply (@regenerating_changes_nothing quiet ["tmp"; "scratch"] 3 7 1 true empty_world).
  - intros k. reflexivity.
  - lia.
Defined.

(** X7.  Whatever the environment does and however the call ends, the
    generator removes nothing: every directory and every file that existed
    before still exists afterwards, and every file outside the project
    directory has the content it had. *)
Theorem generator_only_adds `{Environment}
    temp_dir table_count visual_count kb enhanced (w : world) :
  let w' := (create_performance_test_project temp_dir table_count visual_count kb
               enhanced w).2 in
  dirs (fs w) ⊆ dirs (fs w')
  ∧ dom (files (fs w)) ⊆ dom (files (fs w'))
  ∧ ∀ q, ¬ project_dir temp_dir `prefix_of` q → files (fs w') !! q = files (fs w) !! q.
Proof.
  destruct (only_writes_create temp_dir table_count visual_count kb enhanced w)
    as (Hd & Hf & Hq).
  split; [done|]. split; [done|].
  intros q Hout. apply Hq. intros Hin. apply Hout. by apply fixture_files_in_project in Hin.
Qed.

(** X8.  Whatever the environment does and however the call ends, normally
    or with an exception, every file the generator leaves lies in a directory
    that exists, if that was so before the call: each file is written after
    the directory that holds it was made. *)
Theorem generator_keeps_tree_well_formed `{Environment}
    temp_dir table_count visual_count kb enhanced (w : world) :
  well_formed (fs w) →
  well_formed (fs (create_performance_test_project temp_dir table_count visual_count kb
                     enhanced w).2).
Proof.
  intros Hwf.
  pose proof (maintains_create temp_dir table_count visual_count kb enhanced w Hwf) as Hm.
  by destruct (create_performance_test_project _ _ _ _ _ w) as [[a|e] w'].
Qed.

Lemma generator_keeps_tree_well_formed_witness :
  well_formed (fs (@create_performance_test_project (disk_full_at 9) ["tmp"; "scratch"] 3 7 1 true
                     (set_fs (Filesystem {[ ["home"] ]}
                                {[ ["home"; "notes.txt"] := Text "kept" ]})
                        empty_world)).2).
Proof.
  apply (@generator_keeps_tree_well_formed (disk_full_at 9) ["tmp"; "scratch"] 3 7 1 true).
  intros p Hp. cbn in Hp. apply elem_of_dom in Hp as [c Hc].
  apply lookup_singleton_Some in Hc as [<- _].
  exists ["home"], "notes.txt". split; [reflexivity|]. cbn. by apply elem_of_singleton.
Defined.

(** X9.  Whatever the environment does and however the call ends, generating
    a fixture reads no clock, prints nothing and deletes no tree: it is
    outside of what the run measures and reports. *)
Theorem generation_is_silent_and_untimed `{Environment}
    temp_dir table_count visual_count kb enhanced (w : world) :
  let w' := (create_performance_test_project temp_dir table_count visual_count kb
               enhanced w).2 in
  clock_reads w' = clock_reads w
  ∧ stdout w' = stdout w
  ∧ rmtree_log w' = rmtree_log w.
Proof.
  destruct (silent_create temp_dir table_count visual_count kb enhanced w) as (Hc & Ho).
  split; [done|]. split; [done|]. apply keeps_log_create.
Qed.

(** X10.  The generator never clears the project directory, so a fixture
    generated over another one in the same place is laid over it, as the
    three fixtures of a run are.  With no filesystem call failing and a
    project directory that did not exist before, after a fixture of [n1]
    tables and then one of [n2] tables the tables directory holds
    [max n1 n2] files: the files of the tables below [n2] are those of the
    second fixture, and those of the tables from [n2] on are left over from
    the first, with the padding of the first. *)
Theorem fixtures_are_overlaid `{Environment}
    temp_dir n1 v1 kb1 enh1 n2 v2 kb2 enh2 w :
  no_io_faults →
  absent (fs w) (project_dir temp_dir) →
  (enh1 = true → 0 < v1 → n1 ≠ 0) →
  (enh2 = true → 0 < v2 → n2 ≠ 0) →
  ∃ w1 w2,
    create_performance_test_project temp_dir n1 v1 kb1 enh1 w
      = (Ok (project_dir temp_dir), w1)
    ∧ create_performance_test_project temp_dir n2 v2 kb2 enh2 w1
      = (Ok (project_dir temp_dir), w2)
    ∧ size (files_in (fs w2) (tables_dir temp_dir)) = Z.to_nat (Z.max n1 n2)
    ∧ (∀ i, 0 <= i < n2 →
         files (fs w2) !! table_file temp_dir i = Some (Text (table_content kb2 i)))
    ∧ (∀ i, 0 <= i → n2 <= i < n1 →
         files (fs w2) !! table_file temp_dir i = Some (Text (table_content kb1 i))).
Proof.
  intros Hio Habs Hn1 Hn2.
  destruct (create_performance_test_project_ok Hio temp_dir n1 v1 kb1 enh1 w Hn1)
    as [k1 Hrun1].
  eexists.
  destruct (create_performance_test_project_ok Hio temp_dir n2 v2 kb2 enh2
              (advance (fixture_tree temp_dir n1 v1 kb1 enh1) k1 w) Hn2) as [k2 Hrun2].
  eexists. split; [exact Hrun1|]. split; [exact Hrun2|].
  rewrite !fs_advance. split; [|split].
  - rewrite files_in_tables_over, files_in_tables by done.
    rewrite table_files_max. apply size_image_range.
    intros i j Hi Hj. apply table_file_inj; lia.
  - intros i Hi. by apply lookup_table_file.
  - intros i Hi0 Hi. rewrite lookup_fixture_tree_other
      by (apply table_file_not_generated; lia).
    apply lookup_table_file. lia.
Qed.

Lemma fixtures_are_overlaid_witness :
  ∃ w1 w2,
    @create_performance_test_project quiet ["tmp"; "scratch"] 5 0 2 false empty_world
      = (Ok ["tmp"; "scratch"; "PerfTest"], w1)
    ∧ @create_performance_test_project quiet ["tmp"; "scratch"] 3 7 1 true w1
      = (Ok ["tmp"; "scratch"; "PerfTest"], w2)
    ∧ size (files_in (fs w2) (tables_dir ["tmp"; "scratch"])) = Z.to_nat (Z.max 5 3)
    ∧ (∀ i, 0 <= i < 3 →
         files (fs w2) !! table_file ["tmp"; "scratch"] i = Some (Text (table_content 1 i)))
    ∧ (∀ i, 0 <= i → 3 <= i < 5 →
         files (fs w2) !! table_file ["tmp"; "scratch"] i = Some (Text (table_content 2 i))).
Proof.
  apply (@fixtures_are_overlaid quiet ["tmp"; "scratch"] 5 0 2 false 3 7 1 true empty_world).
  - intros k. reflexivity.
  - intros p Hp. exfalso. revert Hp. apply not_elem_of_empty.
  - discriminate.
  - lia.
Defined.

(** X11.  Relationships and visuals refer to table [m] as [Table_{m+1:03d}].
    With no filesystem call failing and a project directory that did not
    exist before, some file of the tables directory declares a table of this
    name exactly when [m] is no multiple of 3: the tables 0, 3, 6, ... are
    declared under a name with spaces only, and are referred to under a name
    that no file declares. *)
Theorem referenced_name_is_declared `{Environment}
    temp_dir table_count visual_count kb enhanced w m :
  no_io_faults →
  absent (fs w) (project_dir temp_dir) →
  0 <= m < table_count →
  ∃ w',
    create_performance_test_project temp_dir table_count visual_count kb enhanced w
      = (Ok (project_dir temp_dir), w')
    ∧ ((∃ p c, p ∈ files_in (fs w') (tables_dir temp_dir)
               ∧ files (fs w') !! p = Some c
               ∧ declared_table c = Some ("Table_" +:+ format_d 3 (m + 1)))
       ↔ m mod 3 ≠ 0).
Proof.
  intros Hio Habs Hm.
  destruct (create_performance_test_project_ok Hio temp_dir table_count visual_count
              kb enhanced w) as [k Hrun]; [lia|].
  eexists. split; [exact Hrun|]. rewrite fs_advance.
  change ("Table_" +:+ format_d 3 (m + 1)) with (table_name m).
  rewrite files_in_tables by done. split.
  - intros (p & c & Hp & Hc & Hdecl).
    apply elem_of_list_to_set, list_elem_of_fmap in Hp as (i & -> & Hi%elem_of_range).
    rewrite lookup_table_file in Hc by done. injection Hc as <-.
    rewrite declared_table_table_text in Hdecl by lia. injection Hdecl as Hname.
    apply safe_name_is_plain in Hname; [tauto|lia|lia].
  - intros Hm3. exists (table_file temp_dir m), (table_text kb m). split; [|split].
    + apply elem_of_list_to_set, list_elem_of_fmap. exists m. split; [done|].
      by apply elem_of_range.
    + by apply lookup_table_file.
    + rewrite declared_table_table_text by lia. f_equal.
      apply safe_name_is_plain; [lia|lia|done].
Qed.

Lemma referenced_name_is_declared_witness :
  ∃ w',
    @create_performance_test_project quiet ["tmp"; "scratch"] 5 7 1 true empty_world
      = (Ok ["tmp"; "scratch"; "PerfTest"], w')
    ∧ ((∃ p c, p ∈ files_in (fs w') (tables_dir ["tmp"; "scratch"])
               ∧ files (fs w') !! p = Some c
               ∧ declared_table c = Some ("Table_" +:+ format_d 3 (3 + 1)))
       ↔ 3 mod 3 ≠ 0).
Proof.
  apply (@referenced_name_is_declared quiet ["tmp"; "scratch"] 5 7 1 true empty_world 3).
  - intros k. reflexivity.
  - intros p Hp. exfalso. revert Hp. apply not_elem_of_empty.
  - lia.
Defined.

(** X12.  When the label of every sample contains exactly one of the words
    [small], [medium] and [large], the three groups of the summary are a
    partition of the samples: every sample is in one group and in one only,
    so that the groups together are a rearrangement of the samples and their
    sizes add up to the number of samples. *)
Theorem groups_partition_the_samples (bs : list sample) :
  (∀ b, b ∈ bs → tier_count b = 1%nat) →
  bs ≡ₚ small_ops bs ++ medium_ops bs ++ large_ops bs
  ∧ (length (small_ops bs) + length (medium_ops bs) + length (large_ops bs))%nat
    = length bs.
Proof.
  intros Hone. pose proof (tier_groups_partition bs Hone) as Hperm.
  split; [done|]. rewrite Hperm at 4. rewrite !length_app. lia.
Qed.

Lemma groups_partition_the_samples_witness :
  @run_samples quiet 0
    ≡ₚ small_ops (@run_samples quiet 0) ++ medium_ops (@run_samples quiet 0)
       ++ large_ops (@run_samples quiet 0)
  ∧ (length (small_ops (@run_samples quiet 0)) + length (medium_ops (@run_samples quiet 0))
     + length (large_ops (@run_samples quiet 0)))%nat
    = length (@run_samples quiet 0).
Proof.
  apply (groups_partition_the_samples (@run_samples quiet 0)).
  intros b Hb. unfold run_samples in Hb.
  repeat (apply elem_of_cons in Hb as [->|Hb]; [vm_compute; reflexivity|]).
  by apply elem_of_nil in Hb.
Defined.

(** X13.  When the call that writes [benchmark_results.json] fails and each
    group has a sample, the summary analysis raises the error of that call
    after the whole summary was printed, averages and scaling analysis
    included, and without the line that confirms that the results were
    saved: the figures of a run whose results could not be saved are on the
    standard output only. *)
Theorem failed_save_loses_the_results `{Environment} (rs : results_t) w e :
  io_fault (io_calls w) = Some e →
  small_ops (benchmarks rs) ≠ [] →
  medium_ops (benchmarks rs) ≠ [] →
  large_ops (benchmarks rs) ≠ [] →
  ∃ w',
    summary_analysis rs w = (Raise e, w')
    ∧ stdout w'
      = (stdout w ++ summary_trace_before_save (benchmarks rs)
                       (scaling_factor_of (benchmarks rs)))
    ∧ (saved_line
       ∉ summary_trace_before_save (benchmarks rs) (scaling_factor_of (benchmarks rs)))
    ∧ clock_reads w' = clock_reads w
    ∧ rmtree_log w' = rmtree_log w.
Proof.
  intros He Hs Hm Hl. eexists. split; [by apply summary_analysis_save_fails|].
  cbn [stdout clock_reads rmtree_log]. split; [done|]. split; [|done].
  unfold summary_trace_before_save, scaling_trace, growth_msg.
  intros Hin. repeat (apply elem_of_cons in Hin as [Heq|Hin]; [discriminate Heq|]).
  repeat case_match;
    repeat (apply elem_of_cons in Hin as [Heq|Hin]; [discriminate Heq|]);
    by apply elem_of_nil in Hin.
Qed.

Lemma failed_save_loses_the_results_witness :
  ∃ w',
    @summary_analysis (disk_full_at 0)
      (Results [Sample "load_small" 1%float; Sample "load_medium" 2%float;
                Sample "load_large" 4%float] []) empty_world
    = (Raise (OSError "No space left on device"), w')
    ∧ stdout w'
      = (stdout empty_world
         ++ summary_trace_before_save
              [Sample "load_small" 1%float; Sample "load_medium" 2%float;
               Sample "load_large" 4%float]
              (scaling_factor_of
                 [Sample "load_small" 1%float; Sample "load_medium" 2%float;
                  Sample "load_large" 4%float]))
    ∧ (saved_line
       ∉ summary_trace_before_save
           [Sample "load_small" 1%float; Sample "load_medium" 2%float;
            Sample "load_large" 4%float]
           (scaling_factor_of
              [Sample "load_small" 1%float; Sample "load_medium" 2%float;
               Sample "load_large" 4%float]))
    ∧ clock_reads w' = clock_reads empty_world
    ∧ rmtree_log w' = rmtree_log empty_world.
Proof.
  apply (@failed_save_loses_the_results (disk_full_at 0)
           (Results [Sample "load_small" 1%float; Sample "load_medium" 2%float;
                     Sample "load_large" 4%float] []) empty_world
           (OSError "No space left on device")).
  - reflexivity.
  - vm_compute. discriminate.
  - vm_compute. discriminate.
  - vm_compute. discriminate.
Defined.
